(** * Manifest rendering pipeline ([scripts/render-templates.py])

    A shallow embedding of the script that renders the Jinja2 templates of
    [kubernetes/templates] into Kubernetes manifests and writes a
    [kustomization.yaml] that lists them, and of the start-up of the Python
    service ([services/python-service/app.py]): [init_db] and the loop that
    calls it until the database is initialised.

    Conventions of the embedding.
    - Python [str] objects are kept as their UTF-8 bytes (a [string]); with
      that reading [str.encode()] and [bytes.decode()] are the identity.
    - What [yaml.safe_load] returns is a [yaml] tree whose mappings have
      string keys. Floats, dates and binary scalars are outside the model.
    - The script reads two things from disk, the values documents and the
      template directory ([Disk]), and changes the output tree ([FS]).
      Directory creation and file writes are those of an ideal file system:
      they do not fail. Messages printed on standard output are not part of
      the state.
    - Jinja2 is a library the script calls. The fragment of its template
      language the development needs (literal data and [{{ e }}] with names,
      attribute access and the [b64encode] filter) is given its documented
      semantics under the settings the script chooses.
    - [str()] of objects that are not strings, and the table of attributes
      Python objects carry natively, belong to the Python runtime; they are
      the two variables of the section that holds the script. *)

From Stdlib Require Import Ascii String.
From stdpp Require Import gmap strings list fin_maps.

Set Warnings "-register-all".
Local Open Scope string_scope.

(* ===================================================================== *)
(** * Definitions *)
(* ===================================================================== *)

(** ** [base64.b64encode]: RFC 4648, standard alphabet, [=] padding *)

Module Base64.

(** A group of six bits, most significant first. *)
Record sextet : Type := Sextet
  { s5 : bool; s4 : bool; s3 : bool; s2 : bool; s1 : bool; s0 : bool }.

Definition alphabet : string :=
  "ABCDEFGHIJKLMNOPQRSTUVWXYZabcdefghijklmnopqrstuvwxyz0123456789+/".

Definition pad : ascii := "="%char.

Definition bit (b : bool) (w : nat) : nat := if b then w else 0.

Definition sextet_index (s : sextet) : nat :=
  bit (s5 s) 32 + bit (s4 s) 16 + bit (s3 s) 8
  + bit (s2 s) 4 + bit (s1 s) 2 + bit (s0 s) 1.

Definition sextet_of_index (n : nat) : sextet :=
  Sextet (Nat.testbit n 5) (Nat.testbit n 4) (Nat.testbit n 3)
         (Nat.testbit n 2) (Nat.testbit n 1) (Nat.testbit n 0).

Definition char_of_sextet (s : sextet) : ascii :=
  match String.get (sextet_index s) alphabet with
  | Some c => c
  | None => pad
  end.

Fixpoint index_in (c : ascii) (s : string) : option nat :=
  match s with
  | EmptyString => None
  | String d s' => if Ascii.eqb c d then Some 0 else S <$> index_in c s'
  end.

Definition sextet_of_char (c : ascii) : option sextet :=
  sextet_of_index <$> index_in c alphabet.

(** The three ways a group of input bytes is cut into sextets. Bits of an
    [ascii] are listed least significant first by its constructor. *)
Definition cut3 (x y z : ascii) : sextet * sextet * sextet * sextet :=
  let 'Ascii x0 x1 x2 x3 x4 x5 x6 x7 := x in
  let 'Ascii y0 y1 y2 y3 y4 y5 y6 y7 := y in
  let 'Ascii z0 z1 z2 z3 z4 z5 z6 z7 := z in
  (Sextet x7 x6 x5 x4 x3 x2, Sextet x1 x0 y7 y6 y5 y4,
   Sextet y3 y2 y1 y0 z7 z6, Sextet z5 z4 z3 z2 z1 z0).

Definition cut2 (x y : ascii) : sextet * sextet * sextet :=
  let 'Ascii x0 x1 x2 x3 x4 x5 x6 x7 := x in
  let 'Ascii y0 y1 y2 y3 y4 y5 y6 y7 := y in
  (Sextet x7 x6 x5 x4 x3 x2, Sextet x1 x0 y7 y6 y5 y4,
   Sextet y3 y2 y1 y0 false false).

Definition cut1 (x : ascii) : sextet * sextet :=
  let 'Ascii x0 x1 x2 x3 x4 x5 x6 x7 := x in
  (Sextet x7 x6 x5 x4 x3 x2, Sextet x1 x0 false false false false).

(** The inverse cuts, used by the decoder. *)
Definition join3 (a b c d : sextet) : ascii * ascii * ascii :=
  (Ascii (s4 b) (s5 b) (s0 a) (s1 a) (s2 a) (s3 a) (s4 a) (s5 a),
   Ascii (s2 c) (s3 c) (s4 c) (s5 c) (s0 b) (s1 b) (s2 b) (s3 b),
   Ascii (s0 d) (s1 d) (s2 d) (s3 d) (s4 d) (s5 d) (s0 c) (s1 c)).

Definition join2 (a b c : sextet) : ascii * ascii :=
  (Ascii (s4 b) (s5 b) (s0 a) (s1 a) (s2 a) (s3 a) (s4 a) (s5 a),
   Ascii (s2 c) (s3 c) (s4 c) (s5 c) (s0 b) (s1 b) (s2 b) (s3 b)).

Definition join1 (a b : sextet) : ascii :=
  Ascii (s4 b) (s5 b) (s0 a) (s1 a) (s2 a) (s3 a) (s4 a) (s5 a).

Fixpoint b64encode (bytes : string) : string :=
  match bytes with
  | EmptyString => EmptyString
  | String x EmptyString =>
      let '(a, b) := cut1 x in
      String (char_of_sextet a) (String (char_of_sextet b)
        (String pad (String pad EmptyString)))
  | String x (String y EmptyString) =>
      let '(a, b, c) := cut2 x y in
      String (char_of_sextet a) (String (char_of_sextet b)
        (String (char_of_sextet c) (String pad EmptyString)))
  | String x (String y (String z rest)) =>
      let '(a, b, c, d) := cut3 x y z in
      String (char_of_sextet a) (String (char_of_sextet b)
        (String (char_of_sextet c) (String (char_of_sextet d)
          (b64encode rest))))
  end.

(** [base64.b64decode] on padded input: four characters give three bytes,
    a final group may end in one or two [=]. It is not called by the script;
    it is the decoder the round trip of the helper is stated with. *)
Fixpoint b64decode (text : string) : option string :=
  match text with
  | EmptyString => Some EmptyString
  | String p (String q (String r (String t rest))) =>
      if Ascii.eqb t pad then
        match rest with
        | EmptyString =>
            if Ascii.eqb r pad then
              a ← sextet_of_char p; b ← sextet_of_char q;
              Some (String (join1 a b) EmptyString)
            else
              a ← sextet_of_char p; b ← sextet_of_char q;
              c ← sextet_of_char r;
              let '(x, y) := join2 a b c in
              Some (String x (String y EmptyString))
        | String _ _ => None
        end
      else
        a ← sextet_of_char p; b ← sextet_of_char q;
        c ← sextet_of_char r; d ← sextet_of_char t;
        tail ← b64decode rest;
        let '(x, y, z) := join3 a b c d in
        Some (String x (String y (String z tail)))
  | _ => None
  end.

End Base64.

(** ** Python strings and paths *)

Module Py.

(** [s.startswith(p)]. *)
Fixpoint startswith (p s : string) : bool :=
  match p, s with
  | EmptyString, _ => true
  | String a p', String b s' => Ascii.eqb a b && startswith p' s'
  | String _ _, EmptyString => false
  end.

(** [s.replace(old, new)] for a non-empty [old]: the occurrences of [old]
    are found from left to right and do not overlap. [skip] counts the
    characters of a found occurrence that are still to be passed over. *)
Fixpoint replace_from (old new : string) (skip : nat) (s : string) : string :=
  match s with
  | EmptyString => EmptyString
  | String c s' =>
      match skip with
      | S k => replace_from old new k s'
      | O =>
          if startswith old s
          then new ++ replace_from old new (String.length old - 1) s'
          else String c (replace_from old new 0 s')
      end
  end.

Definition replace (old new s : string) : string := replace_from old new 0 s.

(** [old in s]. *)
Fixpoint contains (old s : string) : bool :=
  startswith old s ||
  match s with
  | EmptyString => false
  | String _ s' => contains old s'
  end.

(** A [pathlib.Path], kept as the operands that [Path(a) / b / c] joined:
    paths built from equal operands are equal. *)
Abbreviation Path := (list string).

(** The text after the last [/] ([acc] is what was read since the last
    one). *)
Fixpoint after_last_slash (acc s : string) : string :=
  match s with
  | EmptyString => acc
  | String c s' =>
      if Ascii.eqb c "/" then after_last_slash EmptyString s'
      else after_last_slash (acc ++ String c EmptyString) s'
  end.

(** [p.name], the final component of a path. The script takes it of output
    paths only, whose last operand ends in [.yaml]: the final component is
    then the text after the last [/] of that operand. *)
Definition name (p : Path) : string :=
  after_last_slash EmptyString (List.last p EmptyString).

End Py.

Import Py.

(** ** Values *)

(** What [yaml.safe_load] builds, and plain Python data in general. *)
Inductive yaml : Type :=
  | YNull
  | YBool (b : bool)
  | YInt (z : Z)
  | YStr (s : string)
  | YList (l : list yaml)
  | YMap (m : gmap string yaml).

(** The objects a binding context or a template expression can hold. *)
Inductive pyobj : Type :=
  | PData (y : yaml)
  | PLambda                  (* lambda s: base64.b64encode(s.encode()).decode() *)
  | PUndefined               (* an instance of jinja2.Undefined *)
  | PNative (name : string). (* a built-in of Python or Jinja2, reached by name *)

Inductive error : Type :=
  | SystemExit (code : Z)
  | YAMLError
  | TypeError
  | KeyError (key : string)
  | AttributeError
  | TemplateNotFound (name : string)
  | UndefinedError.

Inductive result (A : Type) : Type :=
  | Ok (a : A)
  | Raise (e : error).
Arguments Ok {A} a.
Arguments Raise {A} e.

#[export] Instance result_ret : MRet result := fun A a => Ok a.
#[export] Instance result_bind : MBind result := fun A B f m =>
  match m with
  | Ok a => f a
  | Raise e => Raise e
  end.
#[export] Instance result_fmap : FMap result := fun A B f m =>
  match m with
  | Ok a => Ok (f a)
  | Raise e => Raise e
  end.

(** Truth value of plain data, as [if] tests it. *)
Definition truthy (y : yaml) : bool :=
  match y with
  | YNull => false
  | YBool b => b
  | YInt z => negb (Z.eqb z 0)
  | YStr s => negb (String.eqb s "")
  | YList l => match l with [] => false | _ :: _ => true end
  | YMap m => negb (bool_decide (m = ∅))
  end.

(** [d[k]] on a dict with string keys. *)
Definition getitem {A} (d : gmap string A) (k : string) : result A :=
  match d !! k with
  | Some v => Ok v
  | None => Raise (KeyError k)
  end.

(** [o[k]] on an object: only a dict can be indexed by a string. *)
Definition subscript (o : pyobj) (k : string) : result pyobj :=
  match o with
  | PData (YMap m) => PData <$> getitem m k
  | _ => Raise TypeError
  end.

(** The operand of [**o] in a dict display must be a mapping. *)
Definition unpack (o : pyobj) : result (gmap string pyobj) :=
  match o with
  | PData (YMap m) => Ok (PData <$> m)
  | _ => Raise TypeError
  end.

(** [lambda s: base64.b64encode(s.encode()).decode()] on a string. *)
Definition b64encode (s : string) : string := Base64.b64encode s.

(** The same lambda called on an object: [s.encode] exists on strings only,
    and [jinja2.Undefined] answers every attribute with [UndefinedError]. *)
Definition call_b64encode (o : pyobj) : result pyobj :=
  match o with
  | PData (YStr s) => Ok (PData (YStr (b64encode s)))
  | PUndefined => Raise UndefinedError
  | _ => Raise AttributeError
  end.

(** ** Templates: a fragment of Jinja2 *)

(** [Name k] is a name the parser reads as a variable; [true], [false],
    [none] and their capitalised forms are literals, not names. *)
Inductive expr : Type :=
  | Name (k : string)                 (* [k] *)
  | Getattr (e : expr) (a : string)   (* [e.a] *)
  | FilterB64 (e : expr).             (* [e | b64encode] *)

Inductive node : Type :=
  | Data (s : string)                 (* literal text *)
  | Print (e : expr).                 (* [{{ e }}] *)

Abbreviation template := (list node).

(** [jinja2.defaults.DEFAULT_NAMESPACE], the globals of every environment. *)
Definition default_namespace : list string :=
  ["range"; "dict"; "lipsum"; "cycler"; "joiner"; "namespace"].


(** ** The two sides of the file system *)

Inductive document : Type :=
  | Malformed            (* [yaml.safe_load] raises on it *)
  | Parsed (y : yaml).

(** What the script reads: [kubernetes/values/*.yaml], by path, and the
    templates of [kubernetes/templates], by name. *)
Record Disk : Type := {
  values_files : gmap string document;
  templates : gmap string template
}.

Record Kustomization : Type := {
  apiVersion : string;
  kind : string;
  resources : list string
}.

Inductive content : Type :=
  | Text (s : string)            (* [f.write(rendered)] *)
  | Dump (k : Kustomization).    (* [yaml.dump(kustomization, f, ...)] *)

Inductive event : Type :=
  | Mkdir (p : Path)
  | Write (p : Path) (c : content).

(** What the script changes: the directories it made (each stands for
    itself and its ancestors), the files by path, and the order in which
    both happened. One path is one file: no [..] component or link makes
    two different paths meet. *)
Record FS : Type := {
  dirs : gset Path;
  files : gmap Path content;
  log : list event
}.

(** A computation that changes the output tree and may raise. The tree
    reached when an exception is raised is kept: nothing is rolled back. *)
Definition M (A : Type) : Type := FS → FS * result A.

Definition ret {A} (a : A) : M A := fun fs => (fs, Ok a).
Definition lift {A} (r : result A) : M A := fun fs => (fs, r).
Definition bind {A B} (m : M A) (k : A → M B) : M B := fun fs =>
  match m fs with
  | (fs', Ok a) => k a fs'
  | (fs', Raise e) => (fs', Raise e)
  end.

Notation "'do' x <- m ;; k" := (bind m (fun x => k))
  (at level 10, x name, m at level 99, k at level 200,
   format "'[v' 'do'  x  <-  m  ;;  '/' k ']'").

(** The output tree once directory [p] exists. *)
Definition made (fs : FS) (p : Path) : FS :=
  {| dirs := {[p]} ∪ dirs fs; files := files fs;
     log := (log fs ++ [Mkdir p])%list |}.

(** The output tree once [c] was written to [p]: the file is created, or
    what it held is replaced. *)
Definition written (fs : FS) (p : Path) (c : content) : FS :=
  {| dirs := dirs fs; files := <[p := c]> (files fs);
     log := (log fs ++ [Write p c])%list |}.

(** [p.mkdir(parents=True, exist_ok=True)]. *)
Definition mkdir (p : Path) : M unit := fun fs => (made fs p, Ok tt).

(** [with open(p, 'w') as f: ...], the body writing [c]. *)
Definition write_file (p : Path) (c : content) : M unit := fun fs =>
  (written fs p c, Ok tt).

(** The command line: [--environment] is one of three choices. *)
Inductive Env : Type := dev | staging | prod.

Definition env_str (e : Env) : string :=
  match e with
  | dev => "dev"
  | staging => "staging"
  | prod => "prod"
  end.

Record Args : Type := {
  environment : Env;
  output_dir : string
}.

(** ** The Python service ([services/python-service/app.py]): start-up

    [init_db] and the loop that calls it when the module is loaded. The
    database is what the attempts to reach it meet, one after the other;
    the state is how many attempts were made and what was done. Log
    messages are not part of the state. *)

Module Service.

(** The statements of the [try] body of [init_db], any of which may raise. *)
Inductive step : Type :=
  | AtCursor | AtExecute | AtCommit | AtCursorClose | AtConnClose.

(** What one attempt meets: [psycopg2.connect] raises, so that
    [get_db_connection] returns [None]; or there is a connection and a
    statement of the [try] body raises; or the body runs through. *)
Inductive attempt : Type :=
  | NoConnection
  | InitFails (at_ : step)
  | InitOk.

Inductive event : Type :=
  | ConnectFailed          (* [psycopg2.connect] raised *)
  | Connected              (* [psycopg2.connect] returned a connection *)
  | Close                  (* [conn.close()] was called *)
  | Sleep (seconds : Z).   (* [time.sleep(seconds)] returned *)

Record state : Type := {
  attempts : nat;          (* calls of [get_db_connection] so far *)
  trace : list event
}.

(** How a call ends: with a value, or with the [ValueError] of
    [time.sleep] on a negative length. *)
Inductive outcome (A : Type) : Type :=
  | Returned (a : A)
  | ValueError.
Arguments Returned {A} a.
Arguments ValueError {A}.

Definition emit (st : state) (evs : list event) : state :=
  {| attempts := attempts st; trace := trace st ++ evs |}.

(** [get_db_connection()]: any exception of the connect is caught and
    answered with [None]. *)
Definition get_db_connection (db : nat → attempt) (st : state)
  : state * attempt :=
  let met := db (attempts st) in
  ({| attempts := S (attempts st);
      trace := trace st ++ [match met with
                            | NoConnection => ConnectFailed
                            | _ => Connected
                            end] |},
   met).

(** The calls of [conn.close()] of one pass of the loop body: the one that
    ends the [try] body, when the body gets there, and the one of the
    [except] branch, whose own exception is dropped. *)
Definition closes (met : attempt) : list event :=
  match met with
  | NoConnection => []
  | InitFails AtConnClose => [Close; Close]
  | InitFails _ => [Close]
  | InitOk => [Close]
  end.

(** [for attempt in range(attempt, attempt + remaining)], the body of
    [init_db]. *)
Fixpoint init_db_loop (db : nat → attempt) (retries delay_sec : Z)
    (remaining : nat) (attempt_ : Z) (st : state) : state * outcome bool :=
  match remaining with
  | O => (st, Returned false)
  | S remaining' =>
      let '(st, met) := get_db_connection db st in
      let st := emit st (closes met) in
      match met with
      | InitOk => (st, Returned true)
      | _ =>
          if (attempt_ <? retries)%Z then
            let sleep_for := (delay_sec * attempt_)%Z in
            if (sleep_for <? 0)%Z then (st, ValueError)
            else init_db_loop db retries delay_sec remaining'
                   (attempt_ + 1)%Z (emit st [Sleep sleep_for])
          else init_db_loop db retries delay_sec remaining' (attempt_ + 1)%Z st
      end
  end.

(** [init_db(retries, delay_sec)]: [range(1, retries + 1)] is empty when
    [retries] is not positive. *)
Definition init_db (db : nat → attempt) (retries delay_sec : Z) (st : state)
  : state * outcome bool :=
  init_db_loop db retries delay_sec (Z.to_nat retries) 1%Z st.

(** The loop at the end of the module,
    [while not init_db(retries=8, delay_sec=3): time.sleep(5)], run for at
    most [fuel] calls of [init_db]; [None] when that is not enough. *)
Fixpoint startup (db : nat → attempt) (fuel : nat) (st : state)
  : option (state * outcome unit) :=
  match fuel with
  | O => None
  | S fuel' =>
      match init_db db 8 3 st with
      | (st', Returned true) => Some (st', Returned tt)
      | (st', Returned false) => startup db fuel' (emit st' [Sleep 5])
      | (st', ValueError) => Some (st', ValueError)
      end
  end.

(** The lengths of the sleeps of a trace, in order, and their sum. *)
Definition sleeps (tr : list event) : list Z :=
  omap (fun ev => match ev with Sleep n => Some n | _ => None end) tr.

Definition total (l : list Z) : Z := foldr Z.add 0%Z l.

(** A connection is held from [Connected] to the next [conn.close()].
    Starting with a connection held or not, the trace never gets a second
    connection while one is held, never sleeps with one held, and ends with
    none held. *)
Fixpoint closed_after (open : bool) (tr : list event) : bool :=
  match tr with
  | [] => negb open
  | Connected :: tr' => negb open && closed_after true tr'
  | ConnectFailed :: tr' => negb open && closed_after false tr'
  | Close :: tr' => closed_after false tr'
  | Sleep _ :: tr' => negb open && closed_after false tr'
  end.


Definition twelfth_time (k : nat) : attempt :=
  if (k <? 11)%nat then NoConnection else InitOk.


Definition fresh : state := {| attempts := 0; trace := [] |}.

(** The state after [n] more attempts that left the trace [tr]. *)
Definition after (st : state) (n : nat) (tr : list event) : state :=
  {| attempts := attempts st + n; trace := trace st ++ tr |}.

End Service.

(** [all(test(c) for c in s)]. *)
Fixpoint string_forall (test : ascii → bool) (s : string) : bool :=
  match s with
  | EmptyString => true
  | String c s' => test c && string_forall test s'
  end.

(** The character is one base64 text is made of. *)
Definition is_base64_char (c : ascii) : bool :=
  Ascii.eqb c Base64.pad ||
  match Base64.index_in c Base64.alphabet with
  | Some _ => true
  | None => false
  end.

(** ** Sample inputs

    The inputs of the closed examples at the end of the file. *)

(** [dev]: two services with names of their own, each with a [port] that
    overrides the global one; routing is switched off. *)
Definition dev_doc : gmap string yaml :=
  {[ "namespace" := YStr "demo";
     "environment" := YStr "dev";
     "port" := YStr "80";
     "postgres" := YMap {[ "password" := YStr "admin123" ]};
     "python_service" :=
       YMap {[ "service_name" := YStr "api"; "port" := YStr "8000" ]};
     "nodejs_service" :=
       YMap {[ "service_name" := YStr "worker"; "port" := YStr "3000" ]};
     "ingress" := YMap {[ "enabled" := YBool false ]} ]}.

(** [staging]: both services are named [api]; routing is on. *)
Definition staging_doc : gmap string yaml :=
  {[ "namespace" := YStr "demo";
     "environment" := YStr "staging";
     "postgres" := YMap {[ "password" := YStr "admin123" ]};
     "python_service" :=
       YMap {[ "service_name" := YStr "api"; "port" := YStr "8000" ]};
     "nodejs_service" :=
       YMap {[ "service_name" := YStr "api"; "port" := YStr "3000" ]};
     "ingress" :=
       YMap {[ "enabled" := YBool true; "name" := YStr "gateway";
               "host" := YStr "demo.local";
               "services" := YList [YStr "api"] ]} ]}.

(** The templates: [deployment.j2] prints [replicas], a key neither
    document defines. There is no values document for [prod]. *)
Definition sample_disk : Disk :=
  {| values_files :=
       {[ "kubernetes/values/dev.yaml" := Parsed (YMap dev_doc);
          "kubernetes/values/staging.yaml" := Parsed (YMap staging_doc) ]};
     templates :=
       {[ "postgres-statefulset.j2" :=
            [Data "password: ";
             Print (FilterB64 (Getattr (Name "postgres") "password"))];
          "deployment.j2" :=
            [Data "port: "; Print (Name "port");
             Data " replicas: "; Print (Name "replicas")];
          "service.j2" := [Data "name: "; Print (Name "service_name")];
          "ingress.j2" := [Data "host: "; Print (Name "ingress_host")] ]} |}.

Definition dev_tree : gmap string pyobj :=
  <["b64encode" := PLambda]> (PData <$> dev_doc).

Definition staging_tree : gmap string pyobj :=
  <["b64encode" := PLambda]> (PData <$> staging_doc).


(** A disk whose only values document is the one of [dev]; the templates
    are those of [sample_disk]. *)
Definition disk_with (doc : document) : Disk :=
  {| values_files := {[ "kubernetes/values/dev.yaml" := doc ]};
     templates := templates sample_disk |}.

(** Documents that stop a run: one with the namespace only, one without
    the services, and [dev] with the Node.js service set to a string, with
    [ingress:] left empty or switched on without a host. *)
Definition bare_doc : gmap string yaml := {[ "namespace" := YStr "demo" ]}.





(** The contexts of the units of [dev]. *)
Definition dev_postgres_context : gmap string pyobj :=
  {[ "namespace" := PData (YStr "demo");
     "environment" := PData (YStr "dev");
     "postgres" := PData (YMap {[ "password" := YStr "admin123" ]}) ]}.

Definition dev_api_context : gmap string pyobj :=
  (PData <$> {[ "service_name" := YStr "api"; "port" := YStr "8000" ]})
  ∪ dev_tree.






Definition staging_ingress_context : gmap string pyobj :=
  {[ "namespace" := PData (YStr "demo");
     "environment" := PData (YStr "staging");
     "ingress_name" := PData (YStr "gateway");
     "ingress_host" := PData (YStr "demo.local");
     "services" := PData (YList [YStr "api"]) ]}.


Definition empty_fs : FS := {| dirs := ∅; files := ∅; log := [] |}.

Definition dev_args : Args := {| environment := dev; output_dir := "out" |}.
Definition prod_args : Args := {| environment := prod; output_dir := "out" |}.

(** A runtime for the samples: they print strings only, and take
    attributes of dicts by key only. *)
Definition sample_str (o : pyobj) : string :=
  match o with
  | PData YNull => "None"
  | PData (YBool true) => "True"
  | PData (YBool false) => "False"
  | _ => "<object>"
  end.

Definition sample_hasattr (o : pyobj) (a : string) : bool := false.

(** ** The script *)

Section Script.

(** [str(o)] for the objects that are not strings. *)
Variable py_str : pyobj → string.
(** Whether Python's own [getattr(o, a)] finds an attribute (a method such
    as [items] on a dict). *)
Variable py_hasattr : pyobj → string → bool.

(** [str(o)]: a string is itself, [jinja2.Undefined] is the empty string. *)
Definition str (o : pyobj) : string :=
  match o with
  | PData (YStr s) => s
  | PUndefined => ""
  | _ => py_str o
  end.

(** Name lookup in a template: [self] is the template's own reference;
    any other name is looked up in the variables passed to [render] first
    and in the globals of the environment next; what is left is undefined.
    The script builds its [Environment] without an [undefined] argument, so
    the undefined type is the default [jinja2.Undefined]. *)
Definition resolve (context : gmap string pyobj) (k : string) : pyobj :=
  if String.eqb k "self" then PNative k
  else match context !! k with
       | Some o => o
       | None =>
           if bool_decide (k ∈ default_namespace) then PNative k
           else PUndefined
       end.

(** [Environment.getattr(o, a)]: Python's attribute first, the item [o[a]]
    second, undefined when both fail; on [jinja2.Undefined] both raise. *)
Definition getattr (o : pyobj) (a : string) : result pyobj :=
  match o with
  | PUndefined => Raise UndefinedError
  | _ =>
      if py_hasattr o a then Ok (PNative a)
      else match o with
           | PData (YMap m) =>
               match m !! a with
               | Some y => Ok (PData y)
               | None => Ok PUndefined
               end
           | _ => Ok PUndefined
           end
  end.

(** The value of an expression; the filter [b64encode] is the lambda [main]
    registers on the environment. *)
Fixpoint eval (context : gmap string pyobj) (e : expr) : result pyobj :=
  match e with
  | Name k => Ok (resolve context k)
  | Getattr e' a => o ← eval context e'; getattr o a
  | FilterB64 e' => o ← eval context e'; call_b64encode o
  end.

(** The nodes of a template are rendered from left to right, [{{ e }}] as
    [str] of its value (the templates are named [*.j2], for which
    [select_autoescape(['html', 'xml'])] escapes nothing). *)
Fixpoint render_nodes (t : template) (context : gmap string pyobj)
  : result string :=
  match t with
  | [] => Ok ""
  | Data s :: t' => rest ← render_nodes t' context; Ok (s ++ rest)
  | Print e :: t' =>
      o ← eval context e; rest ← render_nodes t' context; Ok (str o ++ rest)
  end.

(** [template.render] called with the keys of the context as keywords. A
    key [self] meets the method's own first parameter: Python refuses the
    call. *)
Definition render (t : template) (context : gmap string pyobj) : result string :=
  match context !! "self" with
  | Some _ => Raise TypeError
  | None => render_nodes t context
  end.

(** [template_env.get_template(template_name)]. *)
Definition get_template (disk : Disk) (template_name : string) : result template :=
  match templates disk !! template_name with
  | Some t => Ok t
  | None => Raise (TemplateNotFound template_name)
  end.

(** [load_values(environment)]: exit status 1 when the values file does not
    exist; otherwise the parsed document, which must be a dict for the
    assignment of the key [b64encode] to go through. *)
Definition load_values (disk : Disk) (environment : string)
  : result (gmap string pyobj) :=
  let values_file := "kubernetes/values/" ++ environment ++ ".yaml" in
  match values_files disk !! values_file with
  | None => Raise (SystemExit 1)
  | Some Malformed => Raise YAMLError
  | Some (Parsed (YMap m)) => Ok (<["b64encode" := PLambda]> (PData <$> m))
  | Some (Parsed _) => Raise TypeError
  end.

(** The name [render_template] gives the output file. *)
Definition output_name (template_name : string) (context : gmap string pyobj)
  : string :=
  let output_name := replace ".j2" ".yaml" template_name in
  match context !! "service_name" with
  | Some v => str v ++ "-" ++ output_name
  | None => output_name
  end.

(** [render_template(template_env, template_name, context, output_dir)]:
    the template is rendered before the output file is opened. *)
Definition render_template (disk : Disk) (template_name : string)
    (context : gmap string pyobj) (output_dir : Path) : M Path :=
  do template <- lift (get_template disk template_name) ;;
  do rendered <- lift (render template context) ;;
  let output_path := (output_dir ++ [output_name template_name context])%list in
  do _ <- write_file output_path (Text rendered) ;;
  ret output_path.

(** The context of the PostgreSQL unit. *)
Definition postgres_context (values : gmap string pyobj)
  : result (gmap string pyobj) :=
  namespace ← getitem values "namespace";
  environment ← getitem values "environment";
  postgres ← getitem values "postgres";
  Ok {[ "namespace" := namespace; "environment" := environment;
        "postgres" := postgres ]}.

(** [{**values, **values[service]}]: the later operand wins. *)
Definition service_context (values : gmap string pyobj) (service : string)
  : result (gmap string pyobj) :=
  sub ← getitem values service;
  overrides ← unpack sub;
  Ok (overrides ∪ values).

(** [values.get('ingress', {}).get('enabled', False)], as [if] reads it. *)
Definition ingress_enabled (values : gmap string pyobj) : result bool :=
  match values !! "ingress" with
  | None => Ok false
  | Some (PData (YMap m)) =>
      Ok (match m !! "enabled" with
          | Some flag => truthy flag
          | None => false
          end)
  | Some _ => Raise AttributeError
  end.

(** The context of the Ingress unit. *)
Definition ingress_context (values : gmap string pyobj)
  : result (gmap string pyobj) :=
  namespace ← getitem values "namespace";
  environment ← getitem values "environment";
  ingress_name ← (getitem values "ingress" ≫= fun i => subscript i "name");
  ingress_host ← (getitem values "ingress" ≫= fun i => subscript i "host");
  services ← (getitem values "ingress" ≫= fun i => subscript i "services");
  Ok {[ "namespace" := namespace; "environment" := environment;
        "ingress_name" := ingress_name; "ingress_host" := ingress_host;
        "services" := services ]}.

(** The dict [main] dumps into [kustomization.yaml]. *)
Definition kustomization_of (rendered_files : list Path) : Kustomization :=
  {| apiVersion := "kustomize.config.k8s.io/v1beta1";
     kind := "Kustomization";
     resources := name <$> rendered_files |}.

(** [main()], from the parsed arguments on. *)
Definition main (disk : Disk) (args : Args) : M unit :=
  let output_dir := [output_dir args; env_str (environment args)] in
  do _ <- mkdir output_dir ;;
  do values <- lift (load_values disk (env_str (environment args))) ;;
  let rendered_files := [] in
  do context <- lift (postgres_context values) ;;
  do f1 <- render_template disk "postgres-statefulset.j2" context output_dir ;;
  let rendered_files := (rendered_files ++ [f1])%list in
  do context <- lift (service_context values "python_service") ;;
  do f2 <- render_template disk "deployment.j2" context output_dir ;;
  let rendered_files := (rendered_files ++ [f2])%list in
  do f3 <- render_template disk "service.j2" context output_dir ;;
  let rendered_files := (rendered_files ++ [f3])%list in
  do context <- lift (service_context values "nodejs_service") ;;
  do f4 <- render_template disk "deployment.j2" context output_dir ;;
  let rendered_files := (rendered_files ++ [f4])%list in
  do f5 <- render_template disk "service.j2" context output_dir ;;
  let rendered_files := (rendered_files ++ [f5])%list in
  do enabled <- lift (ingress_enabled values) ;;
  do rendered_files <-
    (if enabled : bool then
       do context <- lift (ingress_context values) ;;
       do f6 <- render_template disk "ingress.j2" context output_dir ;;
       ret (rendered_files ++ [f6])%list
     else ret rendered_files) ;;
  let kustomization := kustomization_of rendered_files in
  let kustomization_path := (output_dir ++ ["kustomization.yaml"])%list in
  write_file kustomization_path (Dump kustomization).

(** ** The script seen as a pipeline of units

    The definitions below are not in the script: they name what its
    properties are stated with. *)

(** A render unit: a template name and the binding context composed for
    it. *)
Abbreviation unit_ := (string * gmap string pyobj)%type.

(** What the Binder does for a unit: find the template, render it. *)
Definition bind_unit (disk : Disk) (template_name : string)
    (context : gmap string pyobj) : result string :=
  t ← get_template disk template_name; render t context.

(** What [output_name] puts before the template's part of the name. *)
Definition name_prefix (c : gmap string pyobj) : string :=
  match c !! "service_name" with
  | Some v => str v ++ "-"
  | None => ""
  end.

(** The path a unit is written to. *)
Definition artifact (output_dir : Path) (u : unit_) : Path :=
  (output_dir ++ [output_name u.1 u.2])%list.

(** The write of one artifact, as the log records it. *)
Definition artifact_write (output_dir : Path) (u : unit_) (text : string) : event :=
  Write (artifact output_dir u) (Text text).

(** The output tree after the units [us] were written with the texts
    [texts], in that order. *)
Fixpoint written_units (output_dir : Path) (fs : FS) (us : list unit_)
    (texts : list string) : FS :=
  match us, texts with
  | u :: us', text :: texts' =>
      written_units output_dir (written fs (artifact output_dir u) (Text text))
        us' texts'
  | _, _ => fs
  end.

(** The units in the order [main] renders them, once every context is
    composed; the routing unit is last, when there is one. *)
Definition units (c_postgres c_python c_nodejs : gmap string pyobj)
    (c_ingress : option (gmap string pyobj)) : list unit_ :=
  [("postgres-statefulset.j2", c_postgres);
   ("deployment.j2", c_python); ("service.j2", c_python);
   ("deployment.j2", c_nodejs); ("service.j2", c_nodejs)]
  ++ match c_ingress with
     | Some c => [("ingress.j2", c)]
     | None => []
     end.

(** The routing context [main] composes, if it composes one. *)
Definition routing (values : gmap string pyobj)
  : result (option (gmap string pyobj)) :=
  enabled ← ingress_enabled values;
  if enabled : bool then Some <$> ingress_context values else Ok None.


(** Every context of a run, composed ahead of the renders. *)
Definition compose_all (values : gmap string pyobj) : result (list unit_) :=
  c_postgres ← postgres_context values;
  c_python ← service_context values "python_service";
  c_nodejs ← service_context values "nodejs_service";
  c_ingress ← routing values;
  Ok (units c_postgres c_python c_nodejs c_ingress).

(** The renders of a list of units, one after the other. *)
Fixpoint render_units (disk : Disk) (output_dir : Path) (us : list unit_)
  : M (list Path) :=
  match us with
  | [] => ret []
  | u :: us' =>
      do f <- render_template disk u.1 u.2 output_dir ;;
      do rest <- render_units disk output_dir us' ;;
      ret (f :: rest)
  end.

(** The texts of a list of units, when every one of them binds. *)
Definition bind_units (disk : Disk) (us : list unit_) : result (list string) :=
  mapM (fun u : unit_ => bind_unit disk u.1 u.2) us.

(** The path of the aggregator. *)
Definition kustomization_path (output_dir : Path) : Path :=
  (output_dir ++ ["kustomization.yaml"])%list.

(** ** Runs as sequences of events

    Again not in the script: the vocabulary of the properties of whole
    runs. *)

(** What an event does to the output tree. *)
Definition apply_event (fs : FS) (ev : event) : FS :=
  match ev with
  | Mkdir p => made fs p
  | Write p c => written fs p c
  end.

(** The output tree after a sequence of events. *)
Definition replay (evs : list event) (fs : FS) : FS := foldl apply_event fs evs.

(** What the last write of [evs] to [p] wrote, if [evs] writes to [p]. *)
Fixpoint last_write (evs : list event) (p : Path) : option content :=
  match evs with
  | [] => None
  | ev :: evs' =>
      match last_write evs' p with
      | Some c => Some c
      | None =>
          match ev with
          | Write q c => if decide (q = p) then Some c else None
          | Mkdir _ => None
          end
      end
  end.

(** The directories a sequence of events makes. *)
Fixpoint made_dirs (evs : list event) : gset Path :=
  match evs with
  | [] => ∅
  | Mkdir p :: evs' => {[p]} ∪ made_dirs evs'
  | Write _ _ :: evs' => made_dirs evs'
  end.

(** The event is the write of a rendered text. *)
Definition is_artifact_write (ev : event) : bool :=
  match ev with
  | Write _ (Text _) => true
  | _ => false
  end.

(** A computation that does the same thing whatever the output tree holds:
    at most [n] writes of rendered texts, then its result. *)
Definition quiet {A} (n : nat) (m : M A) : Prop :=
  ∃ evs r,
    forallb is_artifact_write evs = true ∧ (length evs ≤ n)%nat ∧
    ∀ fs, m fs = (replay evs fs, r).

(** A computation that, whatever the output tree holds, writes at most [n]
    rendered texts and then either raises or writes the aggregator to
    [kpath] and returns. *)
Definition ends_run (kpath : Path) (n : nat) (m : M unit) : Prop :=
  ∃ arts final r,
    forallb is_artifact_write arts = true ∧ (length arts ≤ n)%nat ∧
    ((final = [] ∧ ∃ e, r = Raise e) ∨
     (∃ k, final = [Write kpath (Dump k)]) ∧ r = Ok tt) ∧
    ∀ fs, m fs = (replay (arts ++ final) fs, r).

(** The first key of [keys] that [d] lacks. *)
Definition first_absent {A} (keys : list string) (d : gmap string A)
  : option string :=
  head (filter (fun k => d !! k = None) keys).

(* ===================================================================== *)
(** * Properties *)
(* ===================================================================== *)

(** ** Base64 *)

Lemma sextet_of_char_of_sextet (s : Base64.sextet) :
  Base64.sextet_of_char (Base64.char_of_sextet s) = Some s.
Proof.
  destruct s as [[] [] [] [] [] []]; vm_compute; reflexivity.
Qed.

Lemma char_of_sextet_not_pad (s : Base64.sextet) :
  Ascii.eqb (Base64.char_of_sextet s) Base64.pad = false.
Proof.
  destruct s as [[] [] [] [] [] []]; vm_compute; reflexivity.
Qed.

Lemma join3_cut3 (x y z : ascii) :
  (let '(a, b, c, d) := Base64.cut3 x y z in Base64.join3 a b c d) = (x, y, z).
Proof. destruct x, y, z; reflexivity. Qed.

Lemma join2_cut2 (x y : ascii) :
  (let '(a, b, c) := Base64.cut2 x y in Base64.join2 a b c) = (x, y).
Proof. destruct x, y; reflexivity. Qed.

Lemma join1_cut1 (x : ascii) :
  (let '(a, b) := Base64.cut1 x in Base64.join1 a b) = x.
Proof. destruct x; reflexivity. Qed.

(** Induction on a string three characters at a time. *)
Lemma string_ind3 (P : string → Prop) :
  P EmptyString →
  (∀ x, P (String x EmptyString)) →
  (∀ x y, P (String x (String y EmptyString))) →
  (∀ x y z s, P s → P (String x (String y (String z s)))) →
  ∀ s, P s.
Proof.
  intros H0 H1 H2 H3 s.
  cut (P s ∧ (∀ x, P (String x s)) ∧ (∀ x y, P (String x (String y s)))).
  { intros [? _]; assumption. }
  induction s as [|c s (IH0 & IH1 & IH2)]; repeat split; auto.
Qed.

Lemma b64decode_b64encode (bytes : string) :
  Base64.b64decode (Base64.b64encode bytes) = Some bytes.
Proof.
  induction bytes as [|x|x y|x y z rest IH] using string_ind3.
  - reflexivity.
  - cbn [Base64.b64encode]. pose proof (join1_cut1 x) as J.
    destruct (Base64.cut1 x) as [a b]. cbn [Base64.b64decode].
    rewrite !Ascii.eqb_refl, !sextet_of_char_of_sextet. cbn. by rewrite <- J.
  - cbn [Base64.b64encode]. pose proof (join2_cut2 x y) as J.
    destruct (Base64.cut2 x y) as [[a b] c]. cbn [Base64.b64decode].
    rewrite Ascii.eqb_refl, char_of_sextet_not_pad, !sextet_of_char_of_sextet.
    cbn. unfold Base64.join2 in J. by injection J as <- <-.
  - cbn [Base64.b64encode]. pose proof (join3_cut3 x y z) as J.
    destruct (Base64.cut3 x y z) as [[[a b] c] d].
    cbn [Base64.b64decode]. fold Base64.b64decode.
    rewrite char_of_sextet_not_pad, !sextet_of_char_of_sextet, IH.
    cbn. unfold Base64.join3 in J. by injection J as <- <- <-.
Qed.

(** ** Strings and paths *)

Lemma append_cons (c : ascii) (s t : string) :
  String c s ++ t = String c (s ++ t).
Proof. reflexivity. Qed.

Lemma append_nil_r (s : string) : s ++ "" = s.
Proof.
  induction s as [|c s IH]; [reflexivity|]. by rewrite append_cons, IH.
Qed.

Lemma append_assoc (s t u : string) : (s ++ t) ++ u = s ++ (t ++ u).
Proof.
  induction s as [|c s IH]; [reflexivity|]. by rewrite !append_cons, IH.
Qed.

Lemma length_append (s t : string) :
  String.length (s ++ t) = String.length s + String.length t.
Proof.
  induction s as [|c s IH]; [reflexivity|].
  rewrite append_cons. cbn [String.length]. by rewrite IH.
Qed.

(** The extension of a template name that holds [.j2] once, at its end, is
    what [replace] changes. *)
Lemma replace_extension (base : string) :
  contains ".j2" base = false →
  replace ".j2" ".yaml" (base ++ ".j2") = base ++ ".yaml".
Proof.
  unfold replace. induction base as [|c base IH]; [reflexivity|].
  intros H. apply orb_false_elim in H as [Hhere Hlater].
  rewrite !append_cons. cbn [replace_from].
  replace (startswith ".j2" (String c (base ++ ".j2"))) with false.
  { f_equal. apply IH. destruct base; apply Hlater. }
  symmetry. revert Hhere. cbn [startswith].
  destruct base as [|d [|e base]]; rewrite ?append_cons; cbn;
    rewrite ?andb_false_r; try reflexivity.
  by rewrite !andb_true_r.
Qed.

Lemma after_last_slash_plain (acc s : string) :
  contains "/" s = false → after_last_slash acc s = acc ++ s.
Proof.
  revert acc. induction s as [|c s IH]; intros acc H; cbn [after_last_slash].
  - by rewrite append_nil_r.
  - apply orb_false_elim in H as [Hc Hs]. cbn [startswith] in Hc.
    rewrite andb_true_r in Hc. rewrite Ascii.eqb_sym, Hc.
    rewrite IH, append_assoc; [reflexivity | by destruct s].
Qed.

Lemma after_last_slash_app (acc x s : string) :
  contains "/" s = false →
  after_last_slash acc (x ++ s) = after_last_slash acc x ++ s.
Proof.
  intros H. revert acc.
  induction x as [|c x IH]; intros acc.
  - by apply after_last_slash_plain.
  - rewrite append_cons. cbn [after_last_slash].
    destruct (Ascii.eqb c "/"); apply IH.
Qed.

(** The final component of an output path is that of the file name. *)
Lemma name_snoc (output_dir : Path) (file : string) :
  name (output_dir ++ [file]) = after_last_slash "" file.
Proof. unfold name. by rewrite List.last_last. Qed.

(** ** Sequencing *)

Lemma bind_ret {A B} (a : A) (k : A → M B) fs : bind (ret a) k fs = k a fs.
Proof. reflexivity. Qed.

Lemma bind_assoc {A B C} (m : M A) (k : A → M B) (k' : B → M C) fs :
  bind (bind m k) k' fs = bind m (fun a => bind (k a) k') fs.
Proof. unfold bind. destruct (m fs) as [fs1 [a|e]]; reflexivity. Qed.

Lemma bind_lift_Ok {A B} (r : result A) (a : A) (k : A → M B) fs :
  r = Ok a → bind (lift r) k fs = k a fs.
Proof. by intros ->. Qed.

Lemma bind_lift_Raise {A B} (r : result A) (e : error) (k : A → M B) fs :
  r = Raise e → bind (lift r) k fs = (fs, Raise e).
Proof. by intros ->. Qed.

Lemma bind_mkdir {B} (p : Path) (k : unit → M B) fs :
  bind (mkdir p) k fs = k tt (made fs p).
Proof. reflexivity. Qed.

Lemma bind_write_file {B} (p : Path) (c : content) (k : unit → M B) fs :
  bind (write_file p c) k fs = k tt (written fs p c).
Proof. reflexivity. Qed.

(** ** One render *)

(** [render_template] writes the text the Binder gives, and writes nothing
    when the Binder raises. *)
Lemma render_template_eq disk t c dir fs :
  render_template disk t c dir fs =
  match bind_unit disk t c with
  | Ok text =>
      (written fs (artifact dir (t, c)) (Text text), Ok (artifact dir (t, c)))
  | Raise e => (fs, Raise e)
  end.
Proof.
  unfold render_template, bind_unit, bind, lift.
  destruct (get_template disk t) as [tpl|e]; cbn; [|reflexivity].
  destruct (render tpl c); reflexivity.
Qed.

Lemma bind_render_Ok {B} disk t c dir text (k : Path → M B) fs :
  bind_unit disk t c = Ok text →
  bind (render_template disk t c dir) k fs =
  k (artifact dir (t, c)) (written fs (artifact dir (t, c)) (Text text)).
Proof. intros H. unfold bind. by rewrite render_template_eq, H. Qed.

Lemma bind_render_Raise {B} disk t c dir e (k : Path → M B) fs :
  bind_unit disk t c = Raise e →
  bind (render_template disk t c dir) k fs = (fs, Raise e).
Proof. intros H. unfold bind. by rewrite render_template_eq, H. Qed.

(** ** The contexts of a run *)

Lemma routing_inv values c_ingress :
  routing values = Ok c_ingress →
  (ingress_enabled values = Ok false ∧ c_ingress = None) ∨
  (ingress_enabled values = Ok true ∧
   ∃ c, ingress_context values = Ok c ∧ c_ingress = Some c).
Proof.
  unfold routing. destruct (ingress_enabled values) as [[]|e]; cbn; [| |done].
  - destruct (ingress_context values) as [c|e]; cbn; [|done].
    intros [= <-]. right. eauto.
  - intros [= <-]. by left.
Qed.

Lemma compose_all_inv values us :
  compose_all values = Ok us →
  ∃ c_postgres c_python c_nodejs c_ingress,
    postgres_context values = Ok c_postgres ∧
    service_context values "python_service" = Ok c_python ∧
    service_context values "nodejs_service" = Ok c_nodejs ∧
    routing values = Ok c_ingress ∧
    us = units c_postgres c_python c_nodejs c_ingress.
Proof.
  unfold compose_all.
  destruct (postgres_context values) as [c1|]; cbn; [|done].
  destruct (service_context values "python_service") as [c2|]; cbn; [|done].
  destruct (service_context values "nodejs_service") as [c3|]; cbn; [|done].
  destruct (routing values) as [c4|]; cbn; [|done].
  intros [= <-]. by exists c1, c2, c3, c4.
Qed.

(** ** A list of renders *)

Lemma bind_units_cons disk (u : unit_) us :
  bind_units disk (u :: us) =
  text ← bind_unit disk u.1 u.2; texts ← bind_units disk us; Ok (text :: texts).
Proof. reflexivity. Qed.

Lemma render_units_Ok disk dir us texts fs :
  bind_units disk us = Ok texts →
  render_units disk dir us fs =
  (written_units dir fs us texts, Ok (artifact dir <$> us)).
Proof.
  revert texts fs. induction us as [|[t c] us IH]; intros texts fs.
  - intros [= <-]. reflexivity.
  - rewrite bind_units_cons. cbn [fst snd].
    destruct (bind_unit disk t c) as [text|e] eqn:Hu; cbn; [|done].
    destruct (bind_units disk us) as [texts'|e] eqn:Hus; cbn; [|done].
    intros [= <-]. cbn [render_units fst snd].
    erewrite bind_render_Ok by eassumption.
    unfold bind at 1. rewrite (IH texts') by reflexivity. reflexivity.
Qed.

Lemma render_units_Raise disk dir pre (u : unit_) post texts e fs :
  bind_units disk pre = Ok texts →
  bind_unit disk u.1 u.2 = Raise e →
  render_units disk dir (pre ++ u :: post)%list fs =
  (written_units dir fs pre texts, Raise e).
Proof.
  intros Hpre Hu. revert texts fs Hpre.
  induction pre as [|[t c] pre IH]; intros texts fs.
  - intros [= <-]. cbn [app render_units].
    by erewrite bind_render_Raise by eassumption.
  - rewrite bind_units_cons. cbn [fst snd].
    destruct (bind_unit disk t c) as [text|e'] eqn:Ht; cbn; [|done].
    destruct (bind_units disk pre) as [texts'|e'] eqn:Hts; cbn; [|done].
    intros [= <-]. cbn [app render_units fst snd].
    erewrite bind_render_Ok by eassumption.
    unfold bind at 1. rewrite (IH texts') by reflexivity. reflexivity.
Qed.

(** Either every unit binds, or a first one does not. *)
Lemma bind_units_cases disk us :
  (∃ texts, bind_units disk us = Ok texts ∧ length texts = length us) ∨
  (∃ (pre : list unit_) u post texts e,
     us = (pre ++ u :: post)%list ∧ bind_units disk pre = Ok texts ∧
     bind_unit disk u.1 u.2 = Raise e).
Proof.
  induction us as [|[t c] us IH].
  - left. by exists [].
  - destruct (bind_unit disk t c) as [text|e] eqn:Hu.
    + destruct IH as [(texts & Hts & Hlen)|(pre & u & post & texts & e & -> & Hpre & He)].
      * left. exists (text :: texts). rewrite bind_units_cons. cbn [fst snd].
        rewrite Hu, Hts. cbn. by rewrite Hlen.
      * right. exists ((t, c) :: pre), u, post, (text :: texts), e.
        rewrite bind_units_cons. cbn [fst snd]. rewrite Hu, Hpre. done.
    + right. by exists [], (t, c), us, [], e.
Qed.

Lemma render_units_inv disk dir us fs fs' paths :
  render_units disk dir us fs = (fs', Ok paths) →
  ∃ texts, bind_units disk us = Ok texts ∧ length texts = length us ∧
           fs' = written_units dir fs us texts ∧ paths = artifact dir <$> us.
Proof.
  destruct (bind_units_cases disk us)
    as [(texts & Hts & Hlen)|(pre & u & post & texts & e & -> & Hpre & He)].
  - rewrite (render_units_Ok _ _ _ _ _ Hts). intros [= <- <-]. eauto.
  - by rewrite (render_units_Raise _ _ _ _ _ _ _ _ Hpre He).
Qed.

(** ** The whole run *)




(** Case on the next composition or render of a run known by [H]; a
    failure contradicts a run that returned. *)
Ltac next_lift_in H :=
  lazymatch type of H with
  | context [lift ?r] =>
      let Hr := fresh "Hr" in
      destruct r eqn:Hr;
      [ rewrite (bind_lift_Ok _ _ _ _ eq_refl) in H; cbv beta iota in H
      | rewrite (bind_lift_Raise _ _ _ _ eq_refl) in H; discriminate H ]
  end.

Ltac next_render_in H :=
  lazymatch type of H with
  | context [render_template ?d ?t ?c ?dir] =>
      let text := fresh "text" in
      let e := fresh "e" in
      let Hb := fresh "Hb" in
      destruct (bind_unit d t c) as [text|e] eqn:Hb;
      [ rewrite (bind_render_Ok _ _ _ dir _ _ _ Hb) in H; cbv beta iota in H
      | rewrite (bind_render_Raise _ _ _ dir _ _ _ Hb) in H; discriminate H ]
  end.

(** A run that returns loaded its values, composed every context and bound
    every unit; its output tree is the directory, the artifacts in order,
    and the aggregator. *)
Lemma main_Ok_inv disk args fs fs' :
  main disk args fs = (fs', Ok tt) →
  let dir := [output_dir args; env_str (environment args)] in
  ∃ values us texts,
    load_values disk (env_str (environment args)) = Ok values ∧
    compose_all values = Ok us ∧
    bind_units disk us = Ok texts ∧
    length texts = length us ∧
    fs' = written (written_units dir (made fs dir) us texts)
            (kustomization_path dir)
            (Dump (kustomization_of (artifact dir <$> us))).
Proof.
  intros H dir. unfold main in H. cbv zeta in H. fold dir in H.
  rewrite bind_mkdir in H.
  next_lift_in H. next_lift_in H. next_render_in H.
  next_lift_in H. next_render_in H. next_render_in H.
  next_lift_in H. next_render_in H. next_render_in H.
  next_lift_in H.
  match goal with b : bool |- _ => destruct b end.
  - rewrite bind_assoc in H. next_lift_in H.
    rewrite bind_assoc in H. next_render_in H.
    rewrite bind_ret in H. unfold write_file in H. injection H as <-.
    eexists _, (units _ _ _ (Some _)), [_; _; _; _; _; _].
    split; [reflexivity|]. split.
    { unfold compose_all, routing. rewrite Hr0, Hr1, Hr2, Hr3. cbn.
      rewrite Hr4. reflexivity. }
    split.
    { unfold bind_units, units. cbn.
      rewrite Hb, Hb0, Hb1, Hb2, Hb3, Hb4. reflexivity. }
    split; reflexivity.
  - rewrite bind_ret in H. unfold write_file in H. injection H as <-.
    eexists _, (units _ _ _ None), [_; _; _; _; _].
    split; [reflexivity|]. split.
    { unfold compose_all, routing. rewrite Hr0, Hr1, Hr2, Hr3. reflexivity. }
    split.
    { unfold bind_units, units. cbn.
      rewrite Hb, Hb0, Hb1, Hb2, Hb3. reflexivity. }
    split; reflexivity.
Qed.

(** ** What a run leaves in the output tree *)

Lemma log_written_units dir fs us texts :
  log (written_units dir fs us texts) =
  (log fs ++ zip_with (artifact_write dir) us texts)%list.
Proof.
  revert fs texts. induction us as [|u us IH]; intros fs [|text texts];
    cbn [written_units zip_with]; rewrite ?app_nil_r; try reflexivity.
  rewrite IH. cbn [written log]. by rewrite <- app_assoc.
Qed.

Lemma dirs_written_units dir fs us texts :
  dirs (written_units dir fs us texts) = dirs fs.
Proof.
  revert fs texts. induction us as [|u us IH]; intros fs [|text texts];
    cbn [written_units]; try reflexivity.
  by rewrite IH.
Qed.

(** A write replaces whatever the path held. *)
Lemma files_written fs p c : files (written fs p c) !! p = Some c.
Proof. cbn. apply lookup_insert_eq. Qed.


(** ** The contexts, key by key *)

Lemma postgres_context_inv values c :
  postgres_context values = Ok c →
  ∃ namespace environment postgres,
    values !! "namespace" = Some namespace ∧
    values !! "environment" = Some environment ∧
    values !! "postgres" = Some postgres ∧
    c = {[ "namespace" := namespace; "environment" := environment;
           "postgres" := postgres ]}.
Proof.
  unfold postgres_context, getitem.
  destruct (values !! "namespace") as [ns|]; cbn; [|done].
  destruct (values !! "environment") as [en|]; cbn; [|done].
  destruct (values !! "postgres") as [pg|]; cbn; [|done].
  intros [= <-]. by exists ns, en, pg.
Qed.

Lemma ingress_context_inv values c :
  ingress_context values = Ok c →
  ∃ namespace environment m ingress_name ingress_host services,
    values !! "namespace" = Some namespace ∧
    values !! "environment" = Some environment ∧
    values !! "ingress" = Some (PData (YMap m)) ∧
    m !! "name" = Some ingress_name ∧
    m !! "host" = Some ingress_host ∧
    m !! "services" = Some services ∧
    c = {[ "namespace" := namespace; "environment" := environment;
           "ingress_name" := PData ingress_name;
           "ingress_host" := PData ingress_host;
           "services" := PData services ]}.
Proof.
  unfold ingress_context, getitem.
  destruct (values !! "namespace") as [ns|]; cbn; [|done].
  destruct (values !! "environment") as [en|]; cbn; [|done].
  destruct (values !! "ingress") as [[[| | | | |m]| | |]|]; cbn; try done.
  unfold getitem.
  destruct (m !! "name") as [n|] eqn:Hn; cbn; [|done].
  destruct (m !! "host") as [h|] eqn:Hh; cbn; [|done].
  destruct (m !! "services") as [sv|] eqn:Hsv; cbn; [|done].
  intros [= <-]. by exists ns, en, m, n, h, sv.
Qed.

Lemma service_context_inv values service c :
  service_context values service = Ok c →
  ∃ m, values !! service = Some (PData (YMap m)) ∧ c = (PData <$> m) ∪ values.
Proof.
  unfold service_context, getitem.
  destruct (values !! service) as [[[| | | | |m]| | |]|]; cbn; try done.
  intros [= <-]. by exists m.
Qed.


(** ** The names of the artifacts *)

Lemma deployment_not_aggregator (x : string) :
  x ++ "deployment.yaml" ≠ "kustomization.yaml".
Proof.
  intros H. pose proof (f_equal String.length H) as Hlen.
  rewrite length_append in Hlen. cbn in Hlen.
  do 4 (destruct x as [|? x]; [by vm_compute in H|]). cbn in Hlen. lia.
Qed.

Lemma service_not_aggregator (x : string) :
  x ++ "service.yaml" ≠ "kustomization.yaml".
Proof.
  intros H. pose proof (f_equal String.length H) as Hlen.
  rewrite length_append in Hlen. cbn in Hlen.
  do 7 (destruct x as [|? x]; [by vm_compute in H|]). cbn in Hlen. lia.
Qed.

Lemma output_name_prefix t c :
  output_name t c = name_prefix c ++ replace ".j2" ".yaml" t.
Proof.
  unfold output_name, name_prefix. destruct (c !! "service_name"); [|reflexivity].
  by rewrite append_assoc.
Qed.

(** The file name an artifact is listed under ends with the template's part
    of the name when that part has no [/]. *)
Lemma name_artifact dir t c :
  contains "/" (replace ".j2" ".yaml" t) = false →
  name (artifact dir (t, c)) =
  after_last_slash "" (name_prefix c) ++ replace ".j2" ".yaml" t.
Proof.
  intros H. unfold artifact. cbn [fst snd].
  by rewrite name_snoc, output_name_prefix, after_last_slash_app.
Qed.

(** No unit of a run is listed under the aggregator's own name. *)
Lemma units_not_aggregator dir values us (u : unit_) :
  compose_all values = Ok us → u ∈ us →
  name (artifact dir u) ≠ "kustomization.yaml".
Proof.
  intros (c1 & c2 & c3 & c4 & H1 & H2 & H3 & H4 & ->)%compose_all_inv Hu.
  assert (Hpg : name (artifact dir ("postgres-statefulset.j2", c1))
                ≠ "kustomization.yaml").
  { apply postgres_context_inv in H1 as (ns & en & pg & _ & _ & _ & ->).
    rewrite name_artifact by reflexivity. unfold name_prefix.
    by rewrite !lookup_insert_ne, lookup_singleton_ne. }
  assert (Hdep : ∀ c, name (artifact dir ("deployment.j2", c))
                      ≠ "kustomization.yaml").
  { intros c. rewrite name_artifact by reflexivity.
    apply deployment_not_aggregator. }
  assert (Hsvc : ∀ c, name (artifact dir ("service.j2", c))
                      ≠ "kustomization.yaml").
  { intros c. rewrite name_artifact by reflexivity.
    apply service_not_aggregator. }
  unfold units in Hu. apply elem_of_app in Hu as [Hu|Hu].
  - repeat (apply elem_of_cons in Hu as [->|Hu]; [done|]).
    by apply elem_of_nil in Hu.
  - destruct c4 as [c|]; [|by apply elem_of_nil in Hu].
    apply list_elem_of_singleton in Hu as ->.
    apply routing_inv in H4 as [[_ [=]]|[_ (c' & Hc' & [= <-])]].
    apply ingress_context_inv in Hc'
      as (ns & en & m & n & h & sv & _ & _ & _ & _ & _ & _ & ->).
    rewrite name_artifact by reflexivity. unfold name_prefix.
    by rewrite !lookup_insert_ne, lookup_singleton_ne.
Qed.




(** ** What the files hold after the units are written *)



(** ** A run that returns *)

Lemma main_Ok_shape disk args fs fs' :
  main disk args fs = (fs', Ok tt) →
  let dir := [output_dir args; env_str (environment args)] in
  ∃ values us texts,
    load_values disk (env_str (environment args)) = Ok values ∧
    compose_all values = Ok us ∧
    bind_units disk us = Ok texts ∧
    length texts = length us ∧
    log fs' = (log fs ++ Mkdir dir :: zip_with (artifact_write dir) us texts
               ++ [Write (kustomization_path dir)
                     (Dump (kustomization_of (artifact dir <$> us)))])%list ∧
    dirs fs' = {[dir]} ∪ dirs fs ∧
    files fs' !! kustomization_path dir
    = Some (Dump (kustomization_of (artifact dir <$> us))).
Proof.
  intros H dir.
  destruct (main_Ok_inv _ _ _ _ H)
    as (values & us & texts & Hload & Hc & Hb & Hlen & ->).
  exists values, us, texts. fold dir. repeat split; try assumption.
  - cbn [written log]. rewrite log_written_units. cbn [made log].
    by rewrite <- !app_assoc.
  - cbn [written dirs]. by rewrite dirs_written_units.
  - apply files_written.
Qed.


(** The names the aggregator lists for the units of a run. *)
Lemma names_of_units dir values c_postgres c_python c_nodejs c_ingress :
  compose_all values = Ok (units c_postgres c_python c_nodejs c_ingress) →
  name <$> (artifact dir <$> units c_postgres c_python c_nodejs c_ingress) =
  (["postgres-statefulset.yaml";
    name (artifact dir ("deployment.j2", c_python));
    name (artifact dir ("service.j2", c_python));
    name (artifact dir ("deployment.j2", c_nodejs));
    name (artifact dir ("service.j2", c_nodejs))]
   ++ match c_ingress with Some _ => ["ingress.yaml"] | None => [] end)%list.
Proof.
  intros (c1 & c2 & c3 & c4 & H1 & _ & _ & H4 & Hus)%compose_all_inv.
  assert (c_postgres = c1 ∧ c_ingress = c4) as [-> ->].
  { unfold units in Hus. destruct c_ingress, c4; by simplify_eq. }
  assert (Hpg : name (artifact dir ("postgres-statefulset.j2", c1))
                = "postgres-statefulset.yaml").
  { apply postgres_context_inv in H1 as (ns & en & pg & _ & _ & _ & ->).
    rewrite name_artifact by reflexivity. unfold name_prefix.
    by rewrite !lookup_insert_ne, lookup_singleton_ne. }
  assert (Hing : ∀ c, c4 = Some c →
                      name (artifact dir ("ingress.j2", c)) = "ingress.yaml").
  { intros c ->.
    apply routing_inv in H4 as [[_ [=]]|[_ (c' & Hc' & [= <-])]].
    apply ingress_context_inv in Hc'
      as (ns & en & m & n & h & sv & _ & _ & _ & _ & _ & _ & ->).
    rewrite name_artifact by reflexivity. unfold name_prefix.
    by rewrite !lookup_insert_ne, lookup_singleton_ne. }
  unfold units. rewrite !fmap_app. cbn [fmap list_fmap]. rewrite Hpg.
  destruct c4 as [c|]; cbn [fmap list_fmap]; [|reflexivity].
  by rewrite (Hing c).
Qed.

Lemma artifact_writes_are_text dir us texts :
  Forall (fun ev => ∃ p text, ev = Write p (Text text))
         (zip_with (artifact_write dir) us texts).
Proof.
  revert texts. induction us as [|u us IH]; intros [|text texts]; cbn;
    constructor; [by eexists _, _ | apply IH].
Qed.

(* --------------------------------------------------------------------- *)
(** ** The encoding helper *)

(** C9: the helper [b64encode] offered to templates is a function of its
    one string argument; it returns the standard base64 encoding of the
    string (for ["admin123"], ["YWRtaW4xMjM="]), and decoding what it
    returns gives the string back. The filter registered on the engine and
    the lambda stored in the values are that same function. *)
Theorem b64encode_roundtrip :
  (∀ s, Base64.b64decode (b64encode s) = Some s) ∧
  b64encode "admin123" = "YWRtaW4xMjM=" ∧
  Base64.b64decode "YWRtaW4xMjM=" = Some "admin123" ∧
  (∀ s, call_b64encode (PData (YStr s)) = Ok (PData (YStr (b64encode s)))) ∧
  (∀ context e,
     eval context (FilterB64 e) = o ← eval context e; call_b64encode o).
Proof.
  split; [exact b64decode_b64encode|]. repeat split; reflexivity.
Qed.

(* --------------------------------------------------------------------- *)
(** ** Composition of the contexts *)

(** C6: the context composed for the shared-resource unit has exactly the
    three keys [namespace], [environment] and [postgres], each with the
    value the ValueTree gives it; no other key of the ValueTree is in it. *)
Theorem postgres_context_three_keys values c :
  postgres_context values = Ok c →
  dom c = {[ "namespace"; "environment"; "postgres" ]} ∧
  c !! "namespace" = values !! "namespace" ∧
  c !! "environment" = values !! "environment" ∧
  c !! "postgres" = values !! "postgres" ∧
  (∀ k, k ≠ "namespace" → k ≠ "environment" → k ≠ "postgres" →
        c !! k = None).
Proof.
  intros (ns & en & pg & Hns & Hen & Hpg & ->)%postgres_context_inv.
  rewrite Hns, Hen, Hpg. split; [|repeat split].
  - rewrite !dom_insert_L, dom_singleton_L. set_solver.
  - intros k ? ? ?. by rewrite !lookup_insert_ne, lookup_singleton_ne.
Qed.

(** C7: the context composed for a service unit is the whole ValueTree
    merged with the service's sub-mapping, key by key; where both have a
    key, the value of the sub-mapping is the one kept. *)
Theorem service_context_merge values service m :
  values !! service = Some (PData (YMap m)) →
  ∃ c, service_context values service = Ok c ∧
       c = (PData <$> m) ∪ values ∧
       ∀ k, c !! k = match m !! k with
                     | Some y => Some (PData y)
                     | None => values !! k
                     end.
Proof.
  intros H. exists ((PData <$> m) ∪ values). split; [|split; [reflexivity|]].
  - unfold service_context, getitem. by rewrite H.
  - intros k. rewrite lookup_union, lookup_fmap.
    destruct (m !! k) as [y|]; cbn; [|by rewrite (left_id None _)].
    by destruct (values !! k).
Qed.

(** C10: the tree [load_values] returns is not the parsed document: it is
    the document with the key [b64encode] added, bound to the encoding
    lambda. So the context of a service unit has the key [b64encode] (the
    lambda, or the value of the service's own [b64encode] key when it has
    one), and the contexts of the shared resource and of the routing unit
    do not have it. *)
Theorem load_values_adds_b64encode disk environment values :
  load_values disk environment = Ok values →
  (∃ m, values_files disk !! ("kubernetes/values/" ++ environment ++ ".yaml")
          = Some (Parsed (YMap m)) ∧
        values = <["b64encode" := PLambda]> (PData <$> m) ∧
        values ≠ PData <$> m) ∧
  values !! "b64encode" = Some PLambda ∧
  (∀ service c,
     service_context values service = Ok c →
     ∃ m, values !! service = Some (PData (YMap m)) ∧
          c !! "b64encode" = Some match m !! "b64encode" with
                                  | Some y => PData y
                                  | None => PLambda
                                  end) ∧
  (∀ c, postgres_context values = Ok c → c !! "b64encode" = None) ∧
  (∀ c, ingress_context values = Ok c → c !! "b64encode" = None).
Proof.
  unfold load_values.
  destruct (values_files disk !! _) as [[|[| | | | |m]]|]; try done.
  intros [= <-].
  assert (Hkey : (<["b64encode" := PLambda]> (PData <$> m) : gmap string pyobj)
                 !! "b64encode" = Some PLambda) by apply lookup_insert_eq.
  split; [|split; [exact Hkey|split; [|split]]].
  - exists m. split; [reflexivity|split; [reflexivity|]].
    intros Heq. rewrite Heq, lookup_fmap in Hkey.
    by destruct (m !! "b64encode").
  - intros service c (m' & Hm' & ->)%service_context_inv.
    exists m'. split; [exact Hm'|].
    rewrite lookup_union, lookup_fmap, Hkey.
    by destruct (m' !! "b64encode").
  - intros c (ns & en & pg & _ & _ & _ & ->)%postgres_context_inv.
    by rewrite !lookup_insert_ne, lookup_singleton_ne.
  - intros c (ns & en & m' & n & h & sv & _ & _ & _ & _ & _ & _ & ->)%ingress_context_inv.
    by rewrite !lookup_insert_ne, lookup_singleton_ne.
Qed.

(* --------------------------------------------------------------------- *)
(** ** Output names *)

(** C5: the output file name of a render unit is the template name with its
    extension [.j2] replaced by [.yaml], prefixed with the service name and
    a dash exactly when the context of the unit has the key [service_name];
    the contexts of the shared resource and of the routing unit do not have
    that key, so their names get no prefix. [render_template] writes the
    unit under that name in the output directory. *)
Theorem output_name_rule base c :
  contains ".j2" base = false →
  output_name (base ++ ".j2") c =
    match c !! "service_name" with
    | Some v => str v ++ "-" ++ base ++ ".yaml"
    | None => base ++ ".yaml"
    end ∧
  (∀ values, postgres_context values = Ok c → c !! "service_name" = None) ∧
  (∀ values, ingress_context values = Ok c → c !! "service_name" = None) ∧
  (∀ disk dir fs fs' p,
     render_template disk (base ++ ".j2") c dir fs = (fs', Ok p) →
     p = (dir ++ [output_name (base ++ ".j2") c])%list ∧
     ∃ text, fs' = written fs p (Text text)).
Proof.
  intros Hbase. split; [|split; [|split]].
  - unfold output_name. by rewrite (replace_extension _ Hbase).
  - intros values (ns & en & pg & _ & _ & _ & ->)%postgres_context_inv.
    by rewrite !lookup_insert_ne, lookup_singleton_ne.
  - intros values
      (ns & en & m & n & h & sv & _ & _ & _ & _ & _ & _ & ->)%ingress_context_inv.
    by rewrite !lookup_insert_ne, lookup_singleton_ne.
  - intros disk dir fs fs' p. rewrite render_template_eq.
    destruct (bind_unit disk _ c) as [text|e]; [|done].
    intros [= <- <-]. split; [reflexivity|]. by exists text.
Qed.

(* --------------------------------------------------------------------- *)
(** ** A missing values document *)

(** C2, as the script has it: when the values document of the environment
    does not exist the run stops with exit status 1 and writes no file, but
    by then the output directory has been made, since [main] makes it
    before it loads the values. *)
Theorem missing_values_exit_after_mkdir disk args fs :
  values_files disk
    !! ("kubernetes/values/" ++ env_str (environment args) ++ ".yaml") = None →
  let dir := [output_dir args; env_str (environment args)] in
  main disk args fs = (made fs dir, Raise (SystemExit 1)) ∧
  files (made fs dir) = files fs ∧
  dir ∈ dirs (made fs dir) ∧
  log (made fs dir) = (log fs ++ [Mkdir dir])%list.
Proof.
  intros Hmissing dir. split; [|split; [reflexivity|split; [|reflexivity]]].
  - unfold main. cbv zeta. rewrite bind_mkdir.
    apply bind_lift_Raise. unfold load_values. by rewrite Hmissing.
  - cbn. set_solver.
Qed.

(* --------------------------------------------------------------------- *)
(** ** Keys a template uses and the context lacks *)








(* --------------------------------------------------------------------- *)
(** ** The aggregator *)

(** C4: a run that returns wrote one aggregator document, after every
    artifact. Its [resources] are the file names of the artifacts in the
    order they were produced (the shared resource, the deployment and the
    service of the Python service, those of the Node.js service, the
    routing artifact when there is one), repeated names and all; there are
    [1 + 2 * 2] of them, one more when routing is enabled; the aggregator
    is not among them. *)
Theorem aggregator_lists_artifacts disk args fs fs' :
  main disk args fs = (fs', Ok tt) →
  let dir := [output_dir args; env_str (environment args)] in
  ∃ values c_postgres c_python c_nodejs c_ingress texts k,
    load_values disk (env_str (environment args)) = Ok values ∧
    postgres_context values = Ok c_postgres ∧
    service_context values "python_service" = Ok c_python ∧
    service_context values "nodejs_service" = Ok c_nodejs ∧
    routing values = Ok c_ingress ∧
    (is_Some c_ingress ↔ ingress_enabled values = Ok true) ∧
    let us := units c_postgres c_python c_nodejs c_ingress in
    length texts = length us ∧
    log fs' = (log fs ++ Mkdir dir :: zip_with (artifact_write dir) us texts
               ++ [Write (kustomization_path dir) (Dump k)])%list ∧
    Forall (fun ev => ∃ p text, ev = Write p (Text text))
           (zip_with (artifact_write dir) us texts) ∧
    files fs' !! kustomization_path dir = Some (Dump k) ∧
    resources k = name <$> (artifact dir <$> us) ∧
    (∀ u : unit_,
       contains "/" (output_name u.1 u.2) = false →
       name (artifact dir u) = output_name u.1 u.2) ∧
    resources k =
      (["postgres-statefulset.yaml";
        name (artifact dir ("deployment.j2", c_python));
        name (artifact dir ("service.j2", c_python));
        name (artifact dir ("deployment.j2", c_nodejs));
        name (artifact dir ("service.j2", c_nodejs))]
       ++ match c_ingress with Some _ => ["ingress.yaml"] | None => [] end)%list ∧
    length (resources k)
    = 1 + 2 * 2 + (match c_ingress with Some _ => 1 | None => 0 end) ∧
    "kustomization.yaml" ∉ resources k.
Proof.
  intros H dir.
  destruct (main_Ok_shape _ _ _ _ H)
    as (values & us & texts & Hload & Hc & Hb & Hlen & Hlog & _ & Hfile).
  fold dir in Hlog, Hfile.
  assert (Hnot : ∀ u, u ∈ us → name (artifact dir u) ≠ "kustomization.yaml")
    by (intros u; apply (units_not_aggregator dir values us u Hc)).
  destruct (compose_all_inv _ _ Hc)
    as (c1 & c2 & c3 & c4 & H1 & H2 & H3 & H4 & ->).
  exists values, c1, c2, c3, c4, texts,
    (kustomization_of (artifact dir <$> units c1 c2 c3 c4)).
  repeat (split; [assumption|]).
  split.
  { destruct (routing_inv _ _ H4) as [[He ->]|[He (c & _ & ->)]].
    - split; [by intros [? [=]] | by rewrite He].
    - split; [done | by eexists]. }
  cbv zeta. split; [exact Hlen|]. split; [exact Hlog|].
  split; [apply artifact_writes_are_text|]. split; [exact Hfile|].
  split; [reflexivity|]. split.
  { intros u Hu. unfold artifact.
    by rewrite name_snoc, after_last_slash_plain. }
  split; [|split].
  - cbn [kustomization_of resources]. by apply (names_of_units dir values).
  - cbn [kustomization_of resources]. rewrite !length_fmap.
    unfold units. rewrite length_app. by destruct c4.
  - cbn [kustomization_of resources]. intros Hin.
    apply list_elem_of_fmap in Hin as (p & Hp & Hin).
    apply list_elem_of_fmap in Hin as (u & -> & Hin).
    by apply (Hnot _ Hin).
Qed.

(* --------------------------------------------------------------------- *)
(** ** Units with the same output name *)


(* --------------------------------------------------------------------- *)
(** ** Routing *)


(* ===================================================================== *)
(** * Further properties of the script *)
(* ===================================================================== *)

(** ** Replaying events *)

Lemma replay_app evs evs' fs :
  replay (evs ++ evs') fs = replay evs' (replay evs fs).
Proof. unfold replay. apply foldl_app. Qed.

Lemma log_replay evs fs : log (replay evs fs) = (log fs ++ evs)%list.
Proof.
  revert fs. induction evs as [|ev evs IH]; intros fs; cbn.
  - by rewrite app_nil_r.
  - fold (replay evs (apply_event fs ev)). rewrite IH.
    destruct ev; cbn; by rewrite <- app_assoc.
Qed.

Lemma dirs_replay evs fs : dirs (replay evs fs) = made_dirs evs ∪ dirs fs.
Proof.
  revert fs. induction evs as [|ev evs IH]; intros fs; cbn.
  - by rewrite (left_id_L ∅ (∪)).
  - fold (replay evs (apply_event fs ev)). rewrite IH.
    destruct ev as [q|q c]; cbn; [|reflexivity].
    by rewrite (assoc_L (∪)), (comm_L (∪) (made_dirs evs)).
Qed.

Lemma files_replay evs fs p :
  files (replay evs fs) !! p =
  match last_write evs p with
  | Some c => Some c
  | None => files fs !! p
  end.
Proof.
  revert fs. induction evs as [|ev evs IH]; intros fs; cbn; [reflexivity|].
  fold (replay evs (apply_event fs ev)). rewrite IH.
  destruct (last_write evs p) as [c|]; [reflexivity|].
  destruct ev as [q|q c]; cbn; [reflexivity|].
  destruct (decide (q = p)) as [->|Hne].
  - apply lookup_insert_eq.
  - by apply lookup_insert_ne.
Qed.

Lemma last_write_None evs p :
  (∀ c, Write p c ∉ evs) → last_write evs p = None.
Proof.
  induction evs as [|ev evs IH]; intros Hno; cbn; [reflexivity|].
  rewrite IH by (intros c Hin; apply (Hno c); by right).
  destruct ev as [q|q c]; [reflexivity|].
  destruct (decide (q = p)) as [->|]; [|reflexivity].
  exfalso. apply (Hno c). by left.
Qed.

(** ** Computations that do not look at the output tree *)

Lemma quiet_lift {A} n (r : result A) : quiet n (lift r).
Proof. exists [], r. repeat split. cbn. lia. Qed.

Lemma quiet_ret {A} n (a : A) : quiet n (ret a).
Proof. exists [], (Ok a). repeat split. cbn. lia. Qed.

Lemma quiet_render_template disk t c dir :
  quiet 1 (render_template disk t c dir).
Proof.
  destruct (bind_unit disk t c) as [text|e] eqn:Hb.
  - exists [Write (artifact dir (t, c)) (Text text)], (Ok (artifact dir (t, c))).
    repeat split; [cbn; lia|].
    intros fs. by rewrite render_template_eq, Hb.
  - exists [], (Raise e). repeat split; [cbn; lia|].
    intros fs. by rewrite render_template_eq, Hb.
Qed.

Lemma quiet_bind {A B} n1 n2 n (m : M A) (k : A → M B) :
  (n1 + n2 ≤ n)%nat → quiet n1 m → (∀ a, quiet n2 (k a)) → quiet n (bind m k).
Proof.
  intros Hn (evs & r & Ht & Hl & Hm) Hk. destruct r as [a|e].
  - destruct (Hk a) as (evs' & r' & Ht' & Hl' & Hk').
    exists (evs ++ evs')%list, r'. split; [|split].
    + by rewrite forallb_app, Ht, Ht'.
    + rewrite length_app. lia.
    + intros fs. unfold bind. by rewrite Hm, Hk', (replay_app evs).
  - exists evs, (Raise e). split; [exact Ht|]. split; [lia|].
    intros fs. unfold bind. by rewrite Hm.
Qed.

Lemma ends_run_write kpath k : ends_run kpath 0 (write_file kpath (Dump k)).
Proof.
  exists [], [Write kpath (Dump k)], (Ok tt).
  split; [reflexivity|]. split; [reflexivity|]. split; [|reflexivity].
  right. split; [by exists k | reflexivity].
Qed.

Lemma ends_run_bind {A} kpath n1 n2 n (m : M A) (k : A → M unit) :
  (n1 + n2 ≤ n)%nat → quiet n1 m → (∀ a, ends_run kpath n2 (k a)) →
  ends_run kpath n (bind m k).
Proof.
  intros Hn (evs & r & Ht & Hl & Hm) Hk. destruct r as [a|e].
  - destruct (Hk a) as (arts & final & r' & Ht' & Hl' & Hfinal & Hk').
    exists (evs ++ arts)%list, final, r'. split; [|split; [|split]].
    + by rewrite forallb_app, Ht, Ht'.
    + rewrite length_app. lia.
    + exact Hfinal.
    + intros fs. unfold bind.
      by rewrite Hm, Hk', <- app_assoc, (replay_app evs).
  - exists evs, [], (Raise e). split; [exact Ht|]. split; [lia|].
    split; [left; split; [reflexivity | by exists e]|].
    intros fs. unfold bind. by rewrite Hm, app_nil_r.
Qed.

(** Every run makes the directory, writes at most six rendered texts, and
    then either raises or writes the aggregator and returns; which of these
    it does, and what it writes, does not depend on the output tree it
    starts from. *)
Lemma main_trace disk args :
  let dir := [output_dir args; env_str (environment args)] in
  ∃ arts final r,
    forallb is_artifact_write arts = true ∧ (length arts ≤ 6)%nat ∧
    ((final = [] ∧ ∃ e, r = Raise e) ∨
     (∃ k, final = [Write (kustomization_path dir) (Dump k)]) ∧ r = Ok tt) ∧
    ∀ fs, main disk args fs = (replay (Mkdir dir :: arts ++ final) fs, r).
Proof.
  intros dir.
  cut (∀ rest : M unit, ends_run (kustomization_path dir) 6 rest →
       ∃ arts final r,
         forallb is_artifact_write arts = true ∧ (length arts ≤ 6)%nat ∧
         ((final = [] ∧ ∃ e, r = Raise e) ∨
          (∃ k, final = [Write (kustomization_path dir) (Dump k)]) ∧ r = Ok tt) ∧
         ∀ fs, bind (mkdir dir) (fun _ => rest) fs
               = (replay (Mkdir dir :: arts ++ final) fs, r)).
  { intros Hcut. apply Hcut. clear Hcut.
    apply (ends_run_bind _ 0 6); [lia | apply quiet_lift | intros values].
    apply (ends_run_bind _ 0 6); [lia | apply quiet_lift | intros c1].
    apply (ends_run_bind _ 1 5); [lia | apply quiet_render_template | intros f1].
    apply (ends_run_bind _ 0 5); [lia | apply quiet_lift | intros c2].
    apply (ends_run_bind _ 1 4); [lia | apply quiet_render_template | intros f2].
    apply (ends_run_bind _ 1 3); [lia | apply quiet_render_template | intros f3].
    apply (ends_run_bind _ 0 3); [lia | apply quiet_lift | intros c3].
    apply (ends_run_bind _ 1 2); [lia | apply quiet_render_template | intros f4].
    apply (ends_run_bind _ 1 1); [lia | apply quiet_render_template | intros f5].
    apply (ends_run_bind _ 0 1); [lia | apply quiet_lift | intros enabled].
    apply (ends_run_bind _ 1 0); [lia | | intros files; apply ends_run_write].
    destruct enabled; [|apply quiet_ret].
    apply (quiet_bind 0 1); [lia | apply quiet_lift | intros c4].
    apply (quiet_bind 1 0); [lia | apply quiet_render_template | intros f6].
    apply quiet_ret. }
  intros rest (arts & final & r & Ht & Hl & Hfinal & Hrest).
  exists arts, final, r. repeat (split; [assumption|]).
  intros fs. rewrite bind_mkdir. by rewrite Hrest.
Qed.



(** X1: whatever happens, a run writes the aggregator exactly when it
    returns, and then as its last write: the log of a run is the directory,
    at most six rendered texts, and the aggregator if the run returned,
    nothing if it raised. *)
Theorem aggregator_marks_completion disk args fs :
  let dir := [output_dir args; env_str (environment args)] in
  ∃ arts final,
    log (main disk args fs).1 = (log fs ++ Mkdir dir :: arts ++ final)%list ∧
    forallb is_artifact_write arts = true ∧ (length arts ≤ 6)%nat ∧
    ((final = [] ∧ ∃ e, (main disk args fs).2 = Raise e) ∨
     (∃ k, final = [Write (kustomization_path dir) (Dump k)]) ∧
     (main disk args fs).2 = Ok tt).
Proof.
  intros dir.
  destruct (main_trace disk args) as (arts & final & r & Ht & Hl & Hf & Hm).
  fold dir in Hf, Hm. exists arts, final. rewrite Hm. cbn [fst snd].
  rewrite log_replay. by repeat split.
Qed.


(** X3: running the script again over the tree it left changes neither the
    files nor the directories, and ends the same way. *)
Theorem main_idempotent disk args fs :
  let fs1 := (main disk args fs).1 in
  (main disk args fs1).2 = (main disk args fs).2 ∧
  files (main disk args fs1).1 = files fs1 ∧
  dirs (main disk args fs1).1 = dirs fs1.
Proof.
  intros fs1. subst fs1.
  destruct (main_trace disk args) as (arts & final & r & _ & _ & _ & Hm).
  repeat (rewrite Hm; cbn [fst snd]).
  split; [reflexivity|]. split.
  - apply map_eq. intros p. rewrite !files_replay.
    by destruct (last_write _ p).
  - rewrite !dirs_replay. by rewrite (assoc_L (∪)), (idemp_L (∪)).
Qed.

(** ** Values documents the script cannot use *)

(** X4: a values document that exists but is not a mapping stops the run
    right after the output directory is made, with [YAMLError] when it does
    not parse and with [TypeError] when it parses to anything else than a
    mapping (an empty file parses to [None]); no file is written. *)
Theorem unusable_values_document disk args fs doc :
  values_files disk
    !! ("kubernetes/values/" ++ env_str (environment args) ++ ".yaml")
    = Some doc →
  (∀ m, doc ≠ Parsed (YMap m)) →
  let dir := [output_dir args; env_str (environment args)] in
  main disk args fs
  = (made fs dir,
     Raise match doc with Malformed => YAMLError | Parsed _ => TypeError end) ∧
  files (made fs dir) = files fs.
Proof.
  intros Hdoc Hne dir. split; [|reflexivity].
  unfold main. cbv zeta. rewrite bind_mkdir.
  apply bind_lift_Raise. unfold load_values. rewrite Hdoc.
  destruct doc as [|[| | | | |m]]; try reflexivity. by destruct (Hne m).
Qed.

Lemma getitem_first_absent {A} (d : gmap string A) k keys :
  first_absent (k :: keys) d =
  match d !! k with
  | Some _ => first_absent keys d
  | None => Some k
  end.
Proof.
  unfold first_absent. rewrite filter_cons.
  destruct (d !! k) eqn:Hk; destruct (decide _) as [H|H]; done.
Qed.

(** X5: when the loaded tree lacks one of [namespace], [environment] and
    [postgres], the run stops with [KeyError] on the first of them, in that
    order, that is absent; the directory is made and nothing is written. *)
Theorem missing_global_key disk args fs values k :
  load_values disk (env_str (environment args)) = Ok values →
  first_absent ["namespace"; "environment"; "postgres"] values = Some k →
  let dir := [output_dir args; env_str (environment args)] in
  postgres_context values = Raise (KeyError k) ∧
  main disk args fs = (made fs dir, Raise (KeyError k)).
Proof.
  intros Hload Hk dir.
  assert (Hc : postgres_context values = Raise (KeyError k)).
  { revert Hk. rewrite !getitem_first_absent. unfold postgres_context, getitem.
    destruct (values !! "namespace"); cbn; [|by intros [= ->]].
    destruct (values !! "environment"); cbn; [|by intros [= ->]].
    destruct (values !! "postgres"); cbn; [|by intros [= ->]].
    done. }
  split; [exact Hc|].
  unfold main. cbv zeta. rewrite bind_mkdir.
  erewrite bind_lift_Ok by exact Hload. by apply bind_lift_Raise.
Qed.



(** ** Routing that cannot be rendered *)




(** X8: the context composed for the routing unit has exactly the keys
    [namespace], [environment], [ingress_name], [ingress_host] and
    [services]; the last three are the [name], [host] and [services] of the
    [ingress] sub-mapping. The sub-mapping itself, its flag and any other
    key of it or of the tree are not passed to the template. *)
Theorem ingress_context_five_keys values c :
  ingress_context values = Ok c →
  ∃ m, values !! "ingress" = Some (PData (YMap m)) ∧
       dom c = {[ "namespace"; "environment"; "ingress_name";
                  "ingress_host"; "services" ]} ∧
       c !! "namespace" = values !! "namespace" ∧
       c !! "environment" = values !! "environment" ∧
       c !! "ingress_name" = PData <$> m !! "name" ∧
       c !! "ingress_host" = PData <$> m !! "host" ∧
       c !! "services" = PData <$> m !! "services" ∧
       c !! "ingress" = None ∧ c !! "enabled" = None ∧
       c !! "b64encode" = None.
Proof.
  intros (ns & en & m & n & h & sv & Hns & Hen & Hm & Hn & Hh & Hsv & ->)
    %ingress_context_inv.
  exists m. rewrite Hns, Hen, Hn, Hh, Hsv. split; [exact Hm|]. split.
  - rewrite !dom_insert_L, dom_singleton_L. set_solver.
  - repeat split; try reflexivity;
      by rewrite !lookup_insert_ne, lookup_singleton_ne.
Qed.


(** ** Template names and listed names in general *)

Lemma replace_from_absent old new s :
  contains old s = false → replace_from old new 0 s = s.
Proof.
  induction s as [|c s IH]; [reflexivity|].
  intros [Hhere Hlater]%orb_false_elim. cbn [replace_from].
  rewrite Hhere. f_equal. apply IH. exact Hlater.
Qed.

Lemma replace_from_occurrence a b :
  contains ".j2" a = false →
  replace_from ".j2" ".yaml" 0 (a ++ ".j2" ++ b)
  = a ++ ".yaml" ++ replace_from ".j2" ".yaml" 0 b.
Proof.
  induction a as [|c a IH]; [reflexivity|].
  intros [Hhere Hlater]%orb_false_elim.
  rewrite !(append_cons c a). cbn [replace_from].
  replace (startswith ".j2" (String c (a ++ ".j2" ++ b))) with false.
  { f_equal. apply IH. exact Hlater. }
  symmetry. revert Hhere. cbn [startswith].
  destruct a as [|d [|e a]]; rewrite ?append_cons; cbn;
    rewrite ?andb_false_r; try reflexivity.
  intros H. exact H.
Qed.

(** X10: [render_template] replaces every [.j2] of the template name, not
    only a final one, and adds no extension of its own: a name without
    [.j2] is kept as it is, and in a name with several each one becomes
    [.yaml]. *)
Theorem output_name_every_occurrence a b c :
  contains ".j2" a = false →
  output_name a c = name_prefix c ++ a ∧
  output_name (a ++ ".j2" ++ b) c
  = name_prefix c ++ a ++ ".yaml" ++ replace ".j2" ".yaml" b.
Proof.
  intros Ha. rewrite !output_name_prefix. unfold replace. split.
  - by rewrite replace_from_absent.
  - by rewrite replace_from_occurrence.
Qed.

Lemma contains_slash_cons c s :
  contains "/" (String c s) = Ascii.eqb "/" c || contains "/" s.
Proof. cbn [contains startswith]. by rewrite andb_true_r. Qed.

Lemma contains_slash_app a b :
  contains "/" (a ++ b) = contains "/" a || contains "/" b.
Proof.
  induction a as [|c a IH]; [reflexivity|].
  rewrite append_cons, !contains_slash_cons, IH. by rewrite orb_assoc.
Qed.

Lemma after_last_slash_no_slash acc s :
  contains "/" acc = false → contains "/" (after_last_slash acc s) = false.
Proof.
  revert acc. induction s as [|c s IH]; intros acc Hacc; [exact Hacc|].
  cbn [after_last_slash]. destruct (Ascii.eqb c "/") eqn:Hc.
  - by apply IH.
  - apply IH. rewrite contains_slash_app, Hacc, contains_slash_cons.
    by rewrite Ascii.eqb_sym, Hc.
Qed.

Lemma after_last_slash_dir acc x : after_last_slash acc (x ++ "/") = "".
Proof.
  revert acc. induction x as [|c x IH]; intros acc; [reflexivity|].
  rewrite append_cons. cbn [after_last_slash]. by destruct (Ascii.eqb c "/").
Qed.

(** X11: the aggregator lists an artifact by the last component of its
    path, so no listed name has a [/]. When the service name has one, the
    path of the artifact keeps the directory part of the service name and
    the listed name drops it: the entry does not name the file from the
    output directory. *)
Theorem listed_name_drops_directories dir t c x y :
  c !! "service_name" = Some (PData (YStr (x ++ "/" ++ y))) →
  contains "/" y = false →
  contains "/" (replace ".j2" ".yaml" t) = false →
  output_name t c = x ++ "/" ++ y ++ "-" ++ replace ".j2" ".yaml" t ∧
  name (artifact dir (t, c)) = y ++ "-" ++ replace ".j2" ".yaml" t ∧
  name (artifact dir (t, c)) ≠ output_name t c ∧
  (∀ p, contains "/" (name p) = false).
Proof.
  intros Hc Hy Ht.
  assert (Hout : output_name t c
                 = x ++ "/" ++ y ++ "-" ++ replace ".j2" ".yaml" t).
  { unfold output_name. rewrite Hc. cbn [str]. by rewrite !append_assoc. }
  assert (Hname : name (artifact dir (t, c))
                  = y ++ "-" ++ replace ".j2" ".yaml" t).
  { unfold artifact. cbn [fst snd]. rewrite name_snoc, Hout.
    replace (x ++ "/" ++ y ++ "-" ++ replace ".j2" ".yaml" t)
      with ((x ++ "/") ++ (y ++ "-" ++ replace ".j2" ".yaml" t))
      by (by rewrite append_assoc).
    rewrite after_last_slash_app.
    - by rewrite after_last_slash_dir.
    - rewrite !contains_slash_app, Hy, Ht. reflexivity. }
  split; [exact Hout|]. split; [exact Hname|]. split.
  - rewrite Hname, Hout. intros Heq.
    apply (f_equal String.length) in Heq. rewrite !length_append in Heq.
    cbn in Heq. lia.
  - intros p. by apply after_last_slash_no_slash.
Qed.

(** ** The text of an encoding *)

Lemma char_of_sextet_is_base64 (s : Base64.sextet) :
  is_base64_char (Base64.char_of_sextet s) = true.
Proof. destruct s as [[] [] [] [] [] []]; vm_compute; reflexivity. Qed.

(** X12: the encoding helper returns four characters for every three bytes
    of its argument, a last incomplete group included, and every one of
    them is a letter, a digit, [+], [/] or the padding [=]: no line break
    or quote appears in what the templates embed. *)
Theorem b64encode_text (s : string) :
  String.length (b64encode s) = 4 * ((String.length s + 2) / 3) ∧
  string_forall is_base64_char (b64encode s) = true.
Proof.
  unfold b64encode.
  induction s as [|x|x y|x y z rest [IHl IHc]] using string_ind3.
  - by split.
  - cbn [Base64.b64encode]. destruct (Base64.cut1 x) as [a b].
    split; [reflexivity|]. cbn [string_forall].
    by rewrite !char_of_sextet_is_base64.
  - cbn [Base64.b64encode]. destruct (Base64.cut2 x y) as [[a b] c].
    split; [reflexivity|]. cbn [string_forall].
    by rewrite !char_of_sextet_is_base64.
  - cbn [Base64.b64encode]. destruct (Base64.cut3 x y z) as [[[a b] c] d].
    split.
    + cbn [String.length]. rewrite IHl.
      replace (S (S (S (String.length rest))) + 2)
        with (String.length rest + 2 + 1 * 3) by lia.
      rewrite Nat.div_add by lia. lia.
    + cbn [string_forall]. by rewrite !char_of_sextet_is_base64, IHc.
Qed.

End Script.

(* ===================================================================== *)
(** * Closed examples *)
(* ===================================================================== *)



(** The rule of C5 at the deployment template, in the context of the [api]
    service of the [dev] sample. *)
Lemma output_name_rule_witness :
  output_name sample_str "deployment.j2" dev_api_context
  = "api-deployment.yaml".
Proof.
  pose proof (output_name_rule sample_str sample_hasattr "deployment"
                dev_api_context eq_refl) as [H _].
  exact H.
Defined.

(** C2 fails on the script: for [prod], which has no values document, the
    run exits with status 1 and the directory [out/prod], absent before the
    run, exists after it. *)
Lemma missing_values_directory_made :
  snd (main sample_str sample_hasattr sample_disk prod_args empty_fs)
    = Raise (SystemExit 1) ∧
  elements (dirs empty_fs) = [] ∧
  elements
    (dirs (fst (main sample_str sample_hasattr sample_disk prod_args empty_fs)))
    = [["out"; "prod"]] ∧
  log (fst (main sample_str sample_hasattr sample_disk prod_args empty_fs))
    = [Mkdir ["out"; "prod"]].
Proof. repeat split; vm_compute; reflexivity. Qed.

(** The amended C2 at the same run. *)
Lemma missing_values_exit_after_mkdir_witness :
  main sample_str sample_hasattr sample_disk prod_args empty_fs
  = (made empty_fs ["out"; "prod"], Raise (SystemExit 1)).
Proof.
  apply (missing_values_exit_after_mkdir sample_str sample_hasattr
           sample_disk prod_args empty_fs).
  reflexivity.
Defined.




(** C6 on [dev]. *)
Lemma postgres_context_three_keys_witness :
  dom dev_postgres_context = {[ "namespace"; "environment"; "postgres" ]} ∧
  dev_postgres_context !! "port" = None ∧
  dev_postgres_context !! "b64encode" = None.
Proof.
  destruct (postgres_context_three_keys dev_tree dev_postgres_context)
    as (Hdom & _ & _ & _ & Hother).
  - reflexivity.
  - split; [exact Hdom|]. split; apply Hother; discriminate.
Defined.

(** C7 on [dev]: the [port] of the service replaces the global one, the
    namespace comes from the global keys. *)
Lemma service_context_merge_witness :
  ∃ c, service_context dev_tree "python_service" = Ok c ∧
       dev_tree !! "port" = Some (PData (YStr "80")) ∧
       c !! "port" = Some (PData (YStr "8000")) ∧
       c !! "namespace" = Some (PData (YStr "demo")).
Proof.
  destruct (service_context_merge dev_tree "python_service"
              {[ "service_name" := YStr "api"; "port" := YStr "8000" ]})
    as (c & Hc & _ & Hk).
  - reflexivity.
  - exists c. split; [exact Hc|]. split; [reflexivity|].
    split; rewrite Hk; reflexivity.
Defined.

(** C10 on [dev]. *)
Lemma load_values_adds_b64encode_witness :
  load_values sample_disk "dev" = Ok dev_tree ∧
  dev_tree !! "b64encode" = Some PLambda ∧
  dev_tree ≠ PData <$> dev_doc ∧
  dev_postgres_context !! "b64encode" = None.
Proof.
  destruct (load_values_adds_b64encode sample_disk "dev" dev_tree)
    as ((m & Hm & _ & Hne) & Hkey & _ & Hpg & _).
  - reflexivity.
  - split; [reflexivity|]. split; [exact Hkey|]. split.
    + injection Hm as <-. exact Hne.
    + apply Hpg. reflexivity.
Defined.

(** C4 on the run of [dev]. *)
Lemma aggregator_lists_artifacts_witness :
  ∃ k, files (fst (main sample_str sample_hasattr sample_disk dev_args
                     empty_fs))
         !! ["out"; "dev"; "kustomization.yaml"] = Some (Dump k) ∧
       "kustomization.yaml" ∉ resources k.
Proof.
  destruct (aggregator_lists_artifacts sample_str sample_hasattr sample_disk
              dev_args empty_fs
              (fst (main sample_str sample_hasattr sample_disk dev_args
                      empty_fs)))
    as (values & c1 & c2 & c3 & c4 & texts & k & _ & _ & _ & _ & _ & _ & _
        & _ & _ & Hfile & _ & _ & _ & _ & Hnot).
  - apply injective_projections; [reflexivity | vm_compute; reflexivity].
  - by exists k.
Defined.

(** The run of [dev]: six files, the aggregator lists the first five in the
    order they were produced. *)
Lemma dev_run_lists_five :
  snd (main sample_str sample_hasattr sample_disk dev_args empty_fs) = Ok tt ∧
  log (fst (main sample_str sample_hasattr sample_disk dev_args empty_fs))
    = [Mkdir ["out"; "dev"];
       Write ["out"; "dev"; "postgres-statefulset.yaml"]
         (Text "password: YWRtaW4xMjM=");
       Write ["out"; "dev"; "api-deployment.yaml"]
         (Text "port: 8000 replicas: ");
       Write ["out"; "dev"; "api-service.yaml"] (Text "name: api");
       Write ["out"; "dev"; "worker-deployment.yaml"]
         (Text "port: 3000 replicas: ");
       Write ["out"; "dev"; "worker-service.yaml"] (Text "name: worker");
       Write ["out"; "dev"; "kustomization.yaml"]
         (Dump {| apiVersion := "kustomize.config.k8s.io/v1beta1";
                  kind := "Kustomization";
                  resources :=
                    ["postgres-statefulset.yaml"; "api-deployment.yaml";
                     "api-service.yaml"; "worker-deployment.yaml";
                     "worker-service.yaml"] |})].
Proof. split; vm_compute; reflexivity. Qed.



(** ** The further properties on the samples *)

(** X4 on two documents for [dev]: an empty file, which parses to [None],
    and one that does not parse. *)
Lemma unusable_values_document_witness :
  main sample_str sample_hasattr (disk_with (Parsed YNull)) dev_args empty_fs
  = (made empty_fs ["out"; "dev"], Raise TypeError) ∧
  main sample_str sample_hasattr (disk_with Malformed) dev_args empty_fs
  = (made empty_fs ["out"; "dev"], Raise YAMLError).
Proof.
  split.
  - pose proof (unusable_values_document sample_str sample_hasattr
                  (disk_with (Parsed YNull)) dev_args empty_fs (Parsed YNull))
      as H.
    destruct H as [H _]; [reflexivity | discriminate | exact H].
  - pose proof (unusable_values_document sample_str sample_hasattr
                  (disk_with Malformed) dev_args empty_fs Malformed) as H.
    destruct H as [H _]; [reflexivity | discriminate | exact H].
Defined.

(** X5 on a document with the namespace only: the key reported is
    [environment], not [postgres]. *)
Lemma missing_global_key_witness :
  main sample_str sample_hasattr (disk_with (Parsed (YMap bare_doc))) dev_args
    empty_fs
  = (made empty_fs ["out"; "dev"], Raise (KeyError "environment")).
Proof.
  pose proof (missing_global_key sample_str sample_hasattr
                (disk_with (Parsed (YMap bare_doc))) dev_args empty_fs
                (<["b64encode" := PLambda]> (PData <$> bare_doc))
                "environment") as H.
  destruct H as [_ H]; [reflexivity | reflexivity | exact H].
Defined.



(** X8 on [staging]. *)
Lemma ingress_context_five_keys_witness :
  dom staging_ingress_context
  = {[ "namespace"; "environment"; "ingress_name"; "ingress_host";
       "services" ]} ∧
  staging_ingress_context !! "ingress" = None ∧
  staging_ingress_context !! "b64encode" = None.
Proof.
  destruct (ingress_context_five_keys staging_tree staging_ingress_context)
    as (m & _ & Hdom & _ & _ & _ & _ & _ & Hno & _ & Hb).
  - reflexivity.
  - by repeat split.
Defined.


(** X10 on a name without [.j2] and on one that has it twice. *)
Lemma output_name_every_occurrence_witness :
  output_name sample_str "deployment" dev_api_context = "api-deployment" ∧
  output_name sample_str "deployment.j2.j2" dev_api_context
  = "api-deployment.yaml.yaml".
Proof.
  exact (output_name_every_occurrence sample_str "deployment" ".j2"
           dev_api_context eq_refl).
Defined.

(** X11 on a service named [team/api]. *)
Lemma listed_name_drops_directories_witness :
  output_name sample_str "service.j2"
    {[ "service_name" := PData (YStr "team/api") ]}
  = "team/api-service.yaml" ∧
  name (artifact sample_str ["out"; "dev"]
          ("service.j2", {[ "service_name" := PData (YStr "team/api") ]}))
  = "api-service.yaml".
Proof.
  destruct (listed_name_drops_directories sample_str ["out"; "dev"]
              "service.j2" {[ "service_name" := PData (YStr "team/api") ]}
              "team" "api") as (Hout & Hname & _).
  - reflexivity.
  - reflexivity.
  - reflexivity.
  - by split.
Defined.

(* ===================================================================== *)
(** * Properties of the start-up of the Python service *)
(* ===================================================================== *)

Lemma sleeps_app tr tr' :
  Service.sleeps (tr ++ tr') = (Service.sleeps tr ++ Service.sleeps tr')%list.
Proof. unfold Service.sleeps. apply omap_app. Qed.

Lemma sleeps_attempt (met : Service.attempt) :
  Service.sleeps
    (match met with
     | Service.NoConnection => [Service.ConnectFailed]
     | _ => [Service.Connected]
     end ++ Service.closes met) = [].
Proof. by destruct met as [|[]|]. Qed.

Lemma closed_after_app open tr tr' :
  Service.closed_after open tr = true →
  Service.closed_after false tr' = true →
  Service.closed_after open (tr ++ tr') = true.
Proof.
  revert open. induction tr as [|ev tr IH]; intros open; cbn.
  - by destruct open.
  - destruct ev; cbn; try (intros [-> ?]%andb_prop ?; cbn); auto.
Qed.

Lemma closed_after_attempt (met : Service.attempt) :
  Service.closed_after false
    (match met with
     | Service.NoConnection => [Service.ConnectFailed]
     | _ => [Service.Connected]
     end ++ Service.closes met) = true.
Proof. by destruct met as [|[]|]. Qed.

Lemma total_app l l' :
  Service.total (l ++ l') = (Service.total l + Service.total l')%Z.
Proof.
  unfold Service.total. induction l as [|x l IH]; cbn; [reflexivity|].
  rewrite IH. lia.
Qed.

(** Twice the sum of [d * a], [d * (a + 1)], ..., [n] terms. *)
Lemma total_backoff (d a : Z) (n : nat) :
  (2 * Service.total (Z.mul d <$> seqZ a (Z.of_nat n))
   = d * Z.of_nat n * (2 * a + Z.of_nat n - 1))%Z.
Proof.
  revert a. induction n as [|n IH]; intros a.
  { rewrite seqZ_nil by lia. cbn. lia. }
  rewrite seqZ_cons by lia.
  replace (Z.pred (Z.of_nat (S n))) with (Z.of_nat n) by lia.
  cbn [fmap list_fmap Service.total foldr].
  fold (Service.total (Z.mul d <$> seqZ (Z.succ a) (Z.of_nat n))).
  specialize (IH (Z.succ a)). nia.
Qed.

Lemma after_after st n tr n' tr' :
  Service.after (Service.after st n tr) n' tr' = Service.after st (n + n') (tr ++ tr').
Proof. unfold Service.after. cbn. f_equal; [lia | by rewrite app_assoc]. Qed.

(** One pass of the body that does not succeed, then the rest. *)
Lemma init_db_loop_step db retries delay remaining a st :
  db (Service.attempts st) ≠ Service.InitOk →
  Service.init_db_loop db retries delay (S remaining) a st =
  let st1 := Service.after st 1
               (match db (Service.attempts st) with
                | Service.NoConnection => [Service.ConnectFailed]
                | _ => [Service.Connected]
                end ++ Service.closes (db (Service.attempts st))) in
  if (a <? retries)%Z then
    if (delay * a <? 0)%Z then (st1, Service.ValueError)
    else Service.init_db_loop db retries delay remaining (a + 1)%Z
           (Service.after st1 0 [Service.Sleep (delay * a)%Z])
  else Service.init_db_loop db retries delay remaining (a + 1)%Z st1.
Proof.
  intros Hmet. cbn [Service.init_db_loop]. unfold Service.get_db_connection.
  cbv zeta.
  assert (Hst1 : ∀ c : Service.event,
            Service.emit
              {| Service.attempts := S (Service.attempts st);
                 Service.trace := Service.trace st ++ [c] |}
              (Service.closes (db (Service.attempts st)))
            = Service.after st 1 ([c] ++ Service.closes (db (Service.attempts st)))).
  { intros c. unfold Service.emit, Service.after. cbn.
    f_equal; [lia | by rewrite <- app_assoc]. }
  assert (Hsleep : ∀ s z, Service.emit s [Service.Sleep z]
                          = Service.after s 0 [Service.Sleep z]).
  { intros s z. unfold Service.emit, Service.after. f_equal. lia. }
  destruct (db (Service.attempts st)) as [|at_|] eqn:Hdb;
    [| |by destruct Hmet]; rewrite Hst1, ?Hsleep; reflexivity.
Qed.

Lemma init_db_loop_gives_up db retries delay remaining a st :
  (0 ≤ delay)%Z → (1 ≤ a)%Z → retries = (a + Z.of_nat remaining - 1)%Z →
  (∀ j, j < remaining → db (Service.attempts st + j) ≠ Service.InitOk) →
  ∃ tr,
    Service.init_db_loop db retries delay remaining a st
    = (Service.after st remaining tr, Service.Returned false) ∧
    Service.sleeps tr = Z.mul delay <$> seqZ a (Z.of_nat remaining - 1) ∧
    Service.closed_after false tr = true.
Proof.
  intros Hd. revert a st.
  induction remaining as [|n IH]; intros a st Ha Hr Hdb.
  - exists []. cbn. split; [|done]. unfold Service.after. destruct st; cbn.
    f_equal. f_equal; [lia | by rewrite app_nil_r].
  - rewrite init_db_loop_step by (rewrite <- (Nat.add_0_r (Service.attempts st)); apply Hdb; lia).
    cbv zeta.
    set (tr1 := (match db (Service.attempts st) with
                 | Service.NoConnection => [Service.ConnectFailed]
                 | _ => [Service.Connected]
                 end ++ Service.closes (db (Service.attempts st)))%list).
    assert (Htr1 : Service.sleeps tr1 = [] ∧ Service.closed_after false tr1 = true)
      by (split; [apply sleeps_attempt | apply closed_after_attempt]).
    destruct Htr1 as [Hs1 Hc1].
    destruct (Z.ltb_spec a retries) as [Hlt|Hge].
    + destruct (Z.ltb_spec (delay * a) 0) as [Hneg|_]; [nia|].
      destruct n as [|n]; [lia|].
      destruct (IH (a + 1)%Z (Service.after (Service.after st 1 tr1) 0 [Service.Sleep (delay * a)%Z]))
        as (tr & Hrun & Hs & Hc); [lia | lia | |].
      { intros j Hj. cbn. replace (Service.attempts st + 1 + 0 + j)
          with (Service.attempts st + S j) by lia. apply Hdb. lia. }
      exists (tr1 ++ [Service.Sleep (delay * a)%Z] ++ tr)%list.
      split; [|split].
      * by rewrite Hrun, !after_after.
      * rewrite !sleeps_app, Hs1, Hs. cbn [app Service.sleeps omap].
        rewrite (seqZ_cons a) by lia. cbn [fmap list_fmap]. f_equal.
        f_equal. f_equal; lia.
      * apply closed_after_app; [exact Hc1|]. cbn. exact Hc.
    + destruct n as [|n]; [|lia].
      exists tr1. split; [|split].
      * cbn [Service.init_db_loop]. reflexivity.
      * rewrite Hs1. reflexivity.
      * exact Hc1.
Qed.

Lemma init_db_loop_succeeds db retries delay remaining a st i :
  (0 ≤ delay)%Z → (1 ≤ a)%Z → retries = (a + Z.of_nat remaining - 1)%Z →
  i < remaining →
  db (Service.attempts st + i) = Service.InitOk →
  (∀ j, j < i → db (Service.attempts st + j) ≠ Service.InitOk) →
  ∃ tr,
    Service.init_db_loop db retries delay remaining a st
    = (Service.after st (S i) tr, Service.Returned true) ∧
    Service.sleeps tr = Z.mul delay <$> seqZ a (Z.of_nat i) ∧
    Service.closed_after false tr = true.
Proof.
  intros Hd. revert remaining a st.
  induction i as [|i IH]; intros remaining a st Ha Hr Hi Hok Hdb.
  - destruct remaining as [|n]; [lia|].
    rewrite Nat.add_0_r in Hok.
    exists [Service.Connected; Service.Close]. split; [|done].
    cbn [Service.init_db_loop]. unfold Service.get_db_connection.
    rewrite Hok. cbn. unfold Service.after, Service.emit. cbn.
    f_equal. f_equal; [lia | by rewrite <- app_assoc].
  - destruct remaining as [|n]; [lia|].
    rewrite init_db_loop_step by (rewrite <- (Nat.add_0_r (Service.attempts st)); apply Hdb; lia).
    cbv zeta.
    set (tr1 := (match db (Service.attempts st) with
                 | Service.NoConnection => [Service.ConnectFailed]
                 | _ => [Service.Connected]
                 end ++ Service.closes (db (Service.attempts st)))%list).
    assert (Htr1 : Service.sleeps tr1 = [] ∧ Service.closed_after false tr1 = true)
      by (split; [apply sleeps_attempt | apply closed_after_attempt]).
    destruct Htr1 as [Hs1 Hc1].
    destruct (Z.ltb_spec a retries) as [Hlt|Hge]; [|lia].
    destruct (Z.ltb_spec (delay * a) 0) as [Hneg|_]; [nia|].
    destruct (IH n (a + 1)%Z (Service.after (Service.after st 1 tr1) 0 [Service.Sleep (delay * a)%Z]))
      as (tr & Hrun & Hs & Hc); [lia | lia | lia | | |].
    { cbn. replace (Service.attempts st + 1 + 0 + i)
        with (Service.attempts st + S i) by lia. exact Hok. }
    { intros j Hj. cbn. replace (Service.attempts st + 1 + 0 + j)
        with (Service.attempts st + S j) by lia. apply Hdb. lia. }
    exists (tr1 ++ [Service.Sleep (delay * a)%Z] ++ tr)%list.
    split; [|split].
    + by rewrite Hrun, !after_after.
    + rewrite !sleeps_app, Hs1, Hs. cbn [app Service.sleeps omap].
      rewrite (seqZ_cons a) by lia. cbn [fmap list_fmap]. f_equal.
      f_equal. f_equal; lia.
    + apply closed_after_app; [exact Hc1|]. cbn. exact Hc.
Qed.




(** Among the next [n] attempts either one is the first to succeed or
    none does. *)
Lemma first_success_cases (db : nat → Service.attempt) base n :
  (∃ i, i < n ∧ db (base + i) = Service.InitOk ∧
        ∀ j, j < i → db (base + j) ≠ Service.InitOk) ∨
  (∀ j, j < n → db (base + j) ≠ Service.InitOk).
Proof.
  induction n as [|n [(i & Hi & Hok & Hbefore)|Hnone]].
  - right. intros j Hj. lia.
  - left. exists i. split; [lia|]. by split.
  - destruct (db (base + n)) as [|at_|] eqn:Hn.
    + right. intros j Hj.
      destruct (decide (j = n)) as [->|]; [by rewrite Hn | apply Hnone; lia].
    + right. intros j Hj.
      destruct (decide (j = n)) as [->|]; [by rewrite Hn | apply Hnone; lia].
    + left. exists n. split; [lia|]. by split.
Qed.

Lemma startup_unfold db fuel st :
  Service.startup db (S fuel) st =
  match Service.init_db db 8 3 st with
  | (st', Service.Returned true) => Some (st', Service.Returned tt)
  | (st', Service.Returned false) =>
      Service.startup db fuel (Service.after st' 0 [Service.Sleep 5])
  | (st', Service.ValueError) => Some (st', Service.ValueError)
  end.
Proof.
  cbn [Service.startup].
  destruct (Service.init_db db 8 3 st) as [st' [[]|]]; try reflexivity.
  f_equal. unfold Service.emit, Service.after. f_equal. lia.
Qed.

(** The call [init_db(retries=8, delay_sec=3)] of the loop. *)
Lemma startup_call_succeeds db st i :
  i < 8 →
  db (Service.attempts st + i) = Service.InitOk →
  (∀ j, j < i → db (Service.attempts st + j) ≠ Service.InitOk) →
  ∃ tr,
    Service.init_db db 8 3 st
    = (Service.after st (S i) tr, Service.Returned true) ∧
    (2 * Service.total (Service.sleeps tr)
     = 3 * Z.of_nat i * (Z.of_nat i + 1))%Z ∧
    Service.closed_after false tr = true.
Proof.
  intros Hi Hok Hdb. unfold Service.init_db.
  destruct (init_db_loop_succeeds db 8 3 (Z.to_nat 8) 1 st i)
    as (tr & Hrun & Hs & Hc); try assumption; try lia.
  exists tr. split; [exact Hrun|]. split; [|exact Hc].
  rewrite Hs, total_backoff. lia.
Qed.

Lemma startup_call_gives_up db st :
  (∀ j, j < 8 → db (Service.attempts st + j) ≠ Service.InitOk) →
  ∃ tr,
    Service.init_db db 8 3 st
    = (Service.after st 8 tr, Service.Returned false) ∧
    Service.total (Service.sleeps tr) = 84%Z ∧
    Service.closed_after false tr = true.
Proof.
  intros Hdb. unfold Service.init_db.
  destruct (init_db_loop_gives_up db 8 3 (Z.to_nat 8) 1 st)
    as (tr & Hrun & Hs & Hc); try lia.
  { intros j Hj. apply Hdb. lia. }
  exists tr. split; [exact Hrun|]. split; [|exact Hc].
  rewrite Hs. reflexivity.
Qed.

Lemma startup_round db st q r fuel :
  r < 8 → q < fuel →
  db (Service.attempts st + (8 * q + r)) = Service.InitOk →
  (∀ j, j < 8 * q + r → db (Service.attempts st + j) ≠ Service.InitOk) →
  ∃ tr,
    Service.startup db fuel st
    = Some (Service.after st (S (8 * q + r)) tr, Service.Returned tt) ∧
    (2 * Service.total (Service.sleeps tr)
     = 178 * Z.of_nat q + 3 * Z.of_nat r * (Z.of_nat r + 1))%Z ∧
    Service.closed_after false tr = true.
Proof.
  intros Hr. revert st fuel.
  induction q as [|q IH]; intros st fuel Hq Hok Hdb;
    (destruct fuel as [|fuel]; [lia|]); rewrite startup_unfold.
  - destruct (startup_call_succeeds db st r)
      as (tr & -> & Ht & Hc); try assumption.
    exists tr. split; [reflexivity|]. split; [lia | exact Hc].
  - destruct (startup_call_gives_up db st) as (tr8 & -> & Ht8 & Hc8).
    { intros j Hj. apply Hdb. lia. }
    rewrite after_after.
    destruct (IH (Service.after st (8 + 0) (tr8 ++ [Service.Sleep 5])) fuel)
      as (tr & -> & Ht & Hc); [lia | | |].
    { unfold Service.after; cbn [Service.attempts]. replace (Service.attempts st + (8 + 0) + (8 * q + r))
        with (Service.attempts st + (8 * S q + r)) by lia. exact Hok. }
    { intros j Hj. unfold Service.after; cbn [Service.attempts]. replace (Service.attempts st + (8 + 0) + j)
        with (Service.attempts st + (8 + j)) by lia. apply Hdb. lia. }
    exists (tr8 ++ [Service.Sleep 5] ++ tr)%list. split; [|split].
    + rewrite after_after. f_equal. f_equal.
      unfold Service.after. f_equal; [lia | by rewrite <- app_assoc].
    + rewrite !sleeps_app, !total_app.
      change (Service.total (Service.sleeps [Service.Sleep 5])) with 5%Z.
      lia.
    + apply closed_after_app; [exact Hc8|]. cbn. exact Hc.
Qed.

(** X16: the loop that runs when the module is loaded ends as soon as an
    attempt initialises the database. If that is attempt number [n],
    counted from 0, it has made [n / 8] calls of [init_db] that gave up,
    each followed by a sleep of 5, and has slept
    [89 * (n / 8) + 3 * r * (r + 1) / 2] in all, where [r = n mod 8]. *)
Theorem startup_reaches db st n fuel :
  n / 8 < fuel →
  db (Service.attempts st + n) = Service.InitOk →
  (∀ j, j < n → db (Service.attempts st + j) ≠ Service.InitOk) →
  ∃ tr,
    Service.startup db fuel st
    = Some (Service.after st (S n) tr, Service.Returned tt) ∧
    (2 * Service.total (Service.sleeps tr)
     = 178 * Z.of_nat (n / 8)
       + 3 * Z.of_nat (n mod 8) * (Z.of_nat (n mod 8) + 1))%Z ∧
    Service.closed_after false tr = true.
Proof.
  intros Hfuel Hok Hdb.
  pose proof (Nat.div_mod_eq n 8) as Hn.
  pose proof (Nat.mod_upper_bound n 8 ltac:(lia)) as Hr.
  destruct (startup_round db st (n / 8) (n mod 8) fuel)
    as (tr & Hrun & Ht & Hc); try assumption.
  - by rewrite <- Hn.
  - intros j Hj. apply Hdb. lia.
  - exists tr. rewrite <- Hn in Hrun. by repeat split.
Qed.

(** X17: the loop never ends in any other way. Whenever it is over, the
    last attempt made is the first that initialised the database, and
    [conn.close()] has been called on every connection; as long as it is
    not over, every attempt so far, eight for each call of [init_db], has
    failed. With a database that is never initialised the module never
    finishes loading. *)
Theorem startup_only_after_init db fuel st :
  match Service.startup db fuel st with
  | Some (st', r) =>
      r = Service.Returned tt ∧
      ∃ n tr,
        st' = Service.after st (S n) tr ∧
        db (Service.attempts st + n) = Service.InitOk ∧
        (∀ j, j < n → db (Service.attempts st + j) ≠ Service.InitOk) ∧
        Service.closed_after false tr = true
  | None =>
      ∀ j, j < 8 * fuel → db (Service.attempts st + j) ≠ Service.InitOk
  end.
Proof.
  revert st. induction fuel as [|fuel IH]; intros st.
  - cbn. intros j Hj. lia.
  - rewrite startup_unfold.
    destruct (first_success_cases db (Service.attempts st) 8)
      as [(i & Hi & Hok & Hbefore)|Hnone].
    + destruct (startup_call_succeeds db st i)
        as (tr & -> & _ & Hc); try assumption.
      split; [reflexivity|]. by exists i, tr.
    + destruct (startup_call_gives_up db st) as (tr8 & -> & _ & Hc8);
        [exact Hnone|].
      rewrite after_after.
      specialize (IH (Service.after st (8 + 0) (tr8 ++ [Service.Sleep 5]))).
      destruct (Service.startup db fuel _) as [[st' r]|].
      * destruct IH as (-> & n & tr & -> & Hok & Hbefore & Hc).
        split; [reflexivity|].
        exists (8 + n), (tr8 ++ [Service.Sleep 5] ++ tr)%list.
        split; [|split; [|split]].
        -- rewrite after_after, <- app_assoc. unfold Service.after.
           f_equal; lia.
        -- unfold Service.after in Hok; cbn [Service.attempts] in Hok. by replace (Service.attempts st + (8 + n))
             with (Service.attempts st + (8 + 0) + n) by lia.
        -- intros j Hj. destruct (decide (j < 8)) as [Hlt|Hge];
             [by apply Hnone|].
           specialize (Hbefore (j - 8) ltac:(lia)). unfold Service.after in Hbefore; cbn [Service.attempts] in Hbefore.
           by replace (Service.attempts st + (8 + 0) + (j - 8))
             with (Service.attempts st + j) in Hbefore by lia.
        -- apply closed_after_app; [exact Hc8|]. cbn. exact Hc.
      * intros j Hj. destruct (decide (j < 8)) as [Hlt|Hge];
          [by apply Hnone|].
        specialize (IH (j - 8) ltac:(lia)). unfold Service.after in IH; cbn [Service.attempts] in IH.
        by replace (Service.attempts st + (8 + 0) + (j - 8))
          with (Service.attempts st + j) in IH by lia.
Qed.

(** ** The start-up on sample databases *)




(** X16 on a database that is ready at the twelfth attempt: one call of
    [init_db] gives up, the second succeeds at its fourth attempt, after
    107 seconds of sleep in all. *)
Lemma startup_reaches_witness :
  ∃ tr,
    Service.startup Service.twelfth_time 2 Service.fresh
    = Some (Service.after Service.fresh 12 tr, Service.Returned tt) ∧
    Service.total (Service.sleeps tr) = 107%Z.
Proof.
  destruct (startup_reaches Service.twelfth_time Service.fresh 11 2)
    as (tr & Hrun & Ht & _).
  - apply Nat.ltb_lt. reflexivity.
  - reflexivity.
  - intros j Hj. cbn [Service.attempts Service.fresh Nat.add].
    unfold Service.twelfth_time.
    destruct (Nat.ltb_spec j 11); [discriminate | lia].
  - exists tr. split; [exact Hrun|].
    change (11 / 8) with 1 in Ht. change (11 mod 8) with 3 in Ht. lia.
Defined.
